(** * TubeShare client: auth holder, channel search flow, selection list, debounce

    A shallow embedding of

      - [src/components/auth/AuthProvider.tsx]  ([checkAuthStatus], [login],
        [logout]) and
      - [src/app/(app)/dashboard/page.tsx]      ([useDebounce],
        [fetchChannels], [handleSelectChannel], [handleCreateList],
        [handleRemoveChannel], the Create button and the two thumbnail
        render sites), and
      - [src/app/page.tsx]                      ([useProtectedRoute]).

    React state cells are fields of a record, the [set...] functions are
    updates of that record, and an [async] function is a computation in a
    small monad that threads the component state and a trace of the effects
    that leave the component (network requests, router pushes, console
    output) and that ends either normally or with a thrown JavaScript value.
    An [await] is sequencing in that monad: each function is followed from
    its call to the settlement of the promise it returns. *)

From Stdlib Require Import String Ascii List Bool Arith Lia.
Import ListNotations.
Open Scope string_scope.
Open Scope list_scope.

(** ** The JavaScript runtime the components talk to *)

Module Js.

(** Values thrown or used to reject a promise. *)
Inductive Exn : Type :=
| TypeError (msg : string)      (* fetch: the request never got a response *)
| SyntaxError (msg : string)    (* response.json(): the body is not JSON *)
| URIError (msg : string)       (* encodeURIComponent: lone surrogate *)
| Error (msg : string).         (* new Error(msg) *)

Inductive Method : Type := GET | POST.
Inductive Credentials : Type := SameOrigin | Include.

(** The arguments of one [fetch(url, init)] call. *)
Record Request : Type := mkRequest {
  url : string;
  method : Method;
  credentials : Credentials
}.

(** What a response offers to this code: its status, and the result of
    [response.json()], [None] when the body does not parse.  The body is
    typed by the caller ([Channel[]] in the dashboard), hence the
    parameter. *)
Record Response (B : Type) : Type := mkResponse {
  status : nat;
  json : option B
}.
Arguments mkResponse {B} _ _.
Arguments status {B} _.
Arguments json {B} _.

(** [response.ok]: the status is in the range 200-299. *)
Definition ok {B} (r : Response B) : bool :=
  ((200 <=? status r) && (status r <=? 299))%nat.

(** The settlement of the promise [fetch] returns: it rejects only when
    no response arrives, and fulfils on every HTTP status. *)
Inductive FetchResult (B : Type) : Type :=
| NetworkFailure (e : Exn)
| Responded (r : Response B).
Arguments NetworkFailure {B} _.
Arguments Responded {B} _.

(** Effects that leave the component, in the order they happen. *)
Inductive Event : Type :=
| Fetched (req : Request)
| RouterPush (path : string)
| ConsoleError (label : string) (e : Exn)
| ConsoleLog (label : string).

(** A computation over component state [S]: it ends normally with a value
    ([inr]) or abruptly with a thrown value ([inl]). *)
Definition M (S A : Type) : Type :=
  S -> list Event -> (S * list Event) * (Exn + A).

Definition ret {S A} (a : A) : M S A := fun s t => ((s, t), inr a).

Definition throw {S A} (e : Exn) : M S A := fun s t => ((s, t), inl e).

Definition bind {S A B} (m : M S A) (k : A -> M S B) : M S B :=
  fun s t =>
    match m s t with
    | ((s', t'), inr a) => k a s' t'
    | ((s', t'), inl e) => ((s', t'), inl e)
    end.

(** [try { body } catch (e) { handler e }] *)
Definition try_catch {S A} (body : M S A) (handler : Exn -> M S A) : M S A :=
  fun s t =>
    match body s t with
    | ((s', t'), inl e) => handler e s' t'
    | r => r
    end.

(** [try { body } finally { fin }]: [fin] runs on both exits; the exit of
    [body] is kept unless [fin] itself throws. *)
Definition try_finally {S A} (body : M S A) (fin : M S unit) : M S A :=
  fun s t =>
    match body s t with
    | ((s', t'), r) =>
        match fin s' t' with
        | ((s'', t''), inr _) => ((s'', t''), r)
        | ((s'', t''), inl e) => ((s'', t''), inl e)
        end
    end.

(** A state setter: [setX(v)] is [modify (set_X v)]. *)
Definition modify {S} (f : S -> S) : M S unit :=
  fun s t => ((f s, t), inr tt).

Definition emit {S} (ev : Event) : M S unit :=
  fun s t => ((s, t ++ [ev]), inr tt).

Definition console_error {S} (label : string) (e : Exn) : M S unit :=
  emit (ConsoleError label e).

Definition console_log {S} (label : string) : M S unit :=
  emit (ConsoleLog label).

Definition router_push {S} (path : string) : M S unit :=
  emit (RouterPush path).

(** [await fetch(url, init)] against a network [net]: the request is
    recorded, then the promise settles as the network says. *)
Definition fetch {S B} (net : Request -> FetchResult B) (req : Request)
  : M S (Response B) :=
  bind (emit (Fetched req)) (fun _ =>
    match net req with
    | NetworkFailure e => throw e
    | Responded r => ret r
    end).

(** [await response.json()] *)
Definition response_json {S B} (r : Response B) : M S B :=
  match json r with
  | Some b => ret b
  | None => throw (SyntaxError "Unexpected token in JSON")
  end.

(** Lifting a builtin that may throw. *)
Definition lift {S A} (r : Exn + A) : M S A :=
  match r with
  | inl e => throw e
  | inr a => ret a
  end.

(** Running a computation from a state with an empty trace. *)
Definition state_of {S A} (m : M S A) (s : S) : S := fst (fst (m s [])).
Definition trace_of {S A} (m : M S A) (s : S) : list Event := snd (fst (m s [])).
Definition completion {S A} (m : M S A) (s : S) : Exn + A := snd (m s []).

(** The requests among the events of a trace. *)
Fixpoint requests (t : list Event) : list Request :=
  match t with
  | [] => []
  | Fetched r :: t' => r :: requests t'
  | _ :: t' => requests t'
  end.

(** The router pushes among the events of a trace. *)
Fixpoint pushes (t : list Event) : list string :=
  match t with
  | [] => []
  | RouterPush p :: t' => p :: pushes t'
  | _ :: t' => pushes t'
  end.

(** The console errors among the events of a trace. *)
Fixpoint errors_logged (t : list Event) : list (string * Exn) :=
  match t with
  | [] => []
  | ConsoleError l e :: t' => (l, e) :: errors_logged t'
  | _ :: t' => errors_logged t'
  end.

(** [String.prototype.replace(pattern, replacement)] with a string
    pattern: the first occurrence only (the replacement strings used by
    the source contain no [$] pattern). *)
Fixpoint replace (pattern replacement s : string) : string :=
  if prefix pattern s
  then String.append replacement
         (substring (String.length pattern)
                    (String.length s - String.length pattern) s)
  else match s with
       | EmptyString => EmptyString
       | String c s' => String c (replace pattern replacement s')
       end.

End Js.

Declare Scope js_scope.
Delimit Scope js_scope with js.
Notation "x <- m ;; k" := (Js.bind m (fun x => k))
  (at level 61, m at next level, right associativity) : js_scope.
Notation "m ;; k" := (Js.bind m (fun _ => k))
  (at level 61, right associativity) : js_scope.

(** ** AuthProvider.tsx *)

Module Auth.
Import Js.
Local Open Scope js_scope.

Record State : Type := mkState { isAuthenticated : bool }.

(** [useState(false)] *)
Definition initial : State := mkState false.

Definition setIsAuthenticated (b : bool) : M State unit :=
  modify (fun _ => mkState b).

Definition authcheck_request : Request :=
  mkRequest "http://localhost:8000/authcheck" GET Include.

Definition logout_request : Request :=
  mkRequest "/api/auth/logout" POST Include.

Section WithNetwork.
(** The bodies of the two endpoints are never read. *)
Variable net : Request -> FetchResult unit.

Definition checkAuthStatus : M State unit :=
  try_catch
    (response <- fetch net authcheck_request ;;
     if ok response
     then setIsAuthenticated true
     else setIsAuthenticated false)
    (fun error =>
       console_error "Error checking auth status:" error ;;
       setIsAuthenticated false).

(** [useEffect(() => { checkAuthStatus(); }, [])]: run once, at mount. *)
Definition mount : M State unit := checkAuthStatus.

Definition login : M State unit :=
  setIsAuthenticated true ;;
  router_push "/dashboard".

Definition logout : M State unit :=
  try_catch
    (_ <- fetch net logout_request ;;
     setIsAuthenticated false ;;
     router_push "/")
    (fun error => console_error "Error during logout:" error).
End WithNetwork.

End Auth.

(** ** dashboard/page.tsx: search flow and selection list *)

Module Dashboard.
Import Js.
Local Open Scope js_scope.

Record Channel : Type := mkChannel {
  channelId : string;
  name : string;
  thumbnail : string;
  navigationEndpoint : string
}.

(** The [useState] cells of [YoutubeDashboard]. *)
Record State : Type := mkState {
  searchQuery : string;
  searchResults : list Channel;
  selectedChannels : list Channel;
  listName : string;
  isDropdownOpen : bool;
  isLoading : bool;
  error : option string
}.

Definition initial : State := mkState "" [] [] "" false false None.

Definition setSearchQuery (v : string) : M State unit :=
  modify (fun s => mkState v (searchResults s) (selectedChannels s)
                           (listName s) (isDropdownOpen s) (isLoading s) (error s)).

Definition setSearchResults (v : list Channel) : M State unit :=
  modify (fun s => mkState (searchQuery s) v (selectedChannels s)
                           (listName s) (isDropdownOpen s) (isLoading s) (error s)).

(** The functional form [setSelectedChannels((prev) => f(prev))]. *)
Definition setSelectedChannels (f : list Channel -> list Channel) : M State unit :=
  modify (fun s => mkState (searchQuery s) (searchResults s) (f (selectedChannels s))
                           (listName s) (isDropdownOpen s) (isLoading s) (error s)).

Definition setListName (v : string) : M State unit :=
  modify (fun s => mkState (searchQuery s) (searchResults s) (selectedChannels s)
                           v (isDropdownOpen s) (isLoading s) (error s)).

Definition setIsDropdownOpen (v : bool) : M State unit :=
  modify (fun s => mkState (searchQuery s) (searchResults s) (selectedChannels s)
                           (listName s) v (isLoading s) (error s)).

Definition setIsLoading (v : bool) : M State unit :=
  modify (fun s => mkState (searchQuery s) (searchResults s) (selectedChannels s)
                           (listName s) (isDropdownOpen s) v (error s)).

Definition setError (v : option string) : M State unit :=
  modify (fun s => mkState (searchQuery s) (searchResults s) (selectedChannels s)
                           (listName s) (isDropdownOpen s) (isLoading s) v).

(** The message of [setError] in the [catch] block. *)
Definition fetch_error_message : string :=
  "Failed to fetch channels. Please try again.".

Definition search_request (encoded : string) : Request :=
  mkRequest (String.append "http://localhost:8000/fetchChannels?q=" encoded)
            GET Include.

Section WithEnvironment.
(** The search endpoint, and the builtin [encodeURIComponent], which
    returns the encoded text or throws. *)
Variable net : Request -> FetchResult (list Channel).
Variable encodeURIComponent : string -> Exn + string.

Definition fetchChannels (query : string) : M State unit :=
  if (query =? "")%string then
    setSearchResults [] ;;
    setIsDropdownOpen false
  else
    setIsLoading true ;;
    setError None ;;
    try_finally
      (try_catch
         (encoded <- lift (encodeURIComponent query) ;;
          response <- fetch net (search_request encoded) ;;
          (if negb (ok response)
           then throw (Error "Failed to fetch channels")
           else ret tt) ;;
          data <- response_json response ;;
          setSearchResults data ;;
          setIsDropdownOpen true)
         (fun err =>
            console_error "Error fetching channels:" err ;;
            setError (Some fetch_error_message) ;;
            setSearchResults []))
      (setIsLoading false).
End WithEnvironment.

Definition handleSelectChannel (channel : Channel) : M State unit :=
  setSelectedChannels (fun prev => prev ++ [channel]) ;;
  setSearchQuery "" ;;
  setIsDropdownOpen false.

Definition handleCreateList : M State unit :=
  console_log "Created list:" ;;
  setListName "" ;;
  setSelectedChannels (fun _ => []).

Definition handleRemoveChannel (id : string) : M State unit :=
  setSelectedChannels
    (fun prev => filter (fun channel => negb (channelId channel =? id)%string) prev).

(** The [src] both [<Image>] sites compute. *)
Definition thumbnail_src (channel : Channel) : string :=
  replace "//" "https://" (thumbnail channel).

(** One rendered [<Image>]: its [src] and [alt]. *)
Record Image : Type := mkImage { src : string; alt : string }.

Definition render_image (channel : Channel) : Image :=
  mkImage (thumbnail_src channel) (name channel).

(** [{isDropdownOpen && searchResults.length > 0 && (...)}] *)
Definition render_dropdown (s : State) : list Image :=
  if isDropdownOpen s && (0 <? List.length (searchResults s))%nat
  then map render_image (searchResults s)
  else [].

(** The grid of selected channels. *)
Definition render_cards (s : State) : list Image :=
  map render_image (selectedChannels s).

End Dashboard.

(** ** dashboard/page.tsx: [useDebounce] and the effect that searches

    Time is a count of milliseconds.  The timer table is explicit:
    [setTimeout] adds an entry and returns its handle, [clearTimeout]
    removes the entry with a handle, and an entry may run at any moment at
    or after the time it is due.  The callback [() => setDebouncedValue(value)]
    is kept as the [value] it closes over. *)

Module Debounce.

Record Timer : Type := mkTimer {
  handle : nat;
  due : nat;
  captured : string
}.

Record Sys : Type := mkSys {
  now : nat;
  next_handle : nat;
  timers : list Timer;
  (** the [value] argument of the latest render *)
  value : string;
  (** the [useState] cell of the hook, which is what the hook returns *)
  debouncedValue : string;
  (** the [handler] the cleanup of the latest effect run closes over *)
  handler : nat;
  (** the arguments of the successive [setDebouncedValue] calls *)
  set_calls : list string;
  (** the arguments of the successive [fetchChannels] calls made by the
      effect on [debouncedSearchQuery] *)
  searches : list string
}.

(** What a user or the runtime does next. *)
Inductive Action : Type :=
| Tick (d : nat)          (* [d] milliseconds pass *)
| Change (v : string)     (* a render with [v] as the hook's [value] *)
| Fire (h : nat).         (* the runtime runs the timer [h], if it is due *)

Definition clearTimeout (h : nat) (ts : list Timer) : list Timer :=
  filter (fun t => negb (handle t =? h)%nat) ts.

Section WithDelay.
Variable delay : nat.

(** First render: [useState(value)], then the effect sets the first
    timer; the dashboard's own effect calls [fetchChannels] with the
    hook's first result. *)
Definition mount (v0 : string) : Sys :=
  mkSys 0 1 [mkTimer 0 (0 + delay) v0] v0 v0 0 [] [v0].

(** A render with a new [value]: when it differs from the one of the
    previous render the cleanup clears the pending timer and the effect
    sets a new one; when it does not, the dependencies [value, delay]
    are unchanged and the effect is left alone. *)
Definition change (v : string) (s : Sys) : Sys :=
  if (v =? value s)%string then s
  else
    let cleared := clearTimeout (handler s) (timers s) in
    mkSys (now s) (S (next_handle s))
          (cleared ++ [mkTimer (next_handle s) (now s + delay) v])
          v (debouncedValue s) (next_handle s)
          (set_calls s) (searches s).

(** The timer [h] runs, when it is pending and due:
    [setDebouncedValue(captured)].  A state cell set to the value it
    holds causes no render; set to a new one it causes a render in
    which [debouncedSearchQuery] changed, and the effect searches. *)
Definition fire (h : nat) (s : Sys) : Sys :=
  match find (fun t => (handle t =? h)%nat && (due t <=? now s)%nat) (timers s) with
  | None => s
  | Some t =>
      let rest := clearTimeout h (timers s) in
      if (captured t =? debouncedValue s)%string
      then mkSys (now s) (next_handle s) rest (value s) (debouncedValue s)
                 (handler s) (set_calls s ++ [captured t]) (searches s)
      else mkSys (now s) (next_handle s) rest (value s) (captured t)
                 (handler s) (set_calls s ++ [captured t])
                 (searches s ++ [captured t])
  end.

Definition tick (d : nat) (s : Sys) : Sys :=
  mkSys (now s + d) (next_handle s) (timers s) (value s) (debouncedValue s)
        (handler s) (set_calls s) (searches s).

Definition step (a : Action) (s : Sys) : Sys :=
  match a with
  | Tick d => tick d s
  | Change v => change v s
  | Fire h => fire h s
  end.

Fixpoint run (acts : list Action) (s : Sys) : Sys :=
  match acts with
  | [] => s
  | a :: rest => run rest (step a s)
  end.

(** Every value is replaced by a different one strictly less than
    [delay] after it became the input: [cur] is the input so far and
    [held] the time it has been the input. *)
Fixpoint rapid (cur : string) (held : nat) (acts : list Action) : bool :=
  match acts with
  | [] => true
  | Tick d :: rest => rapid cur (held + d) rest
  | Fire _ :: rest => rapid cur held rest
  | Change v :: rest =>
      if (v =? cur)%string then rapid cur held rest
      else (held <? delay)%nat && rapid v 0 rest
  end.

(** The last input of a run that starts with input [cur]. *)
Fixpoint last_input (cur : string) (acts : list Action) : string :=
  match acts with
  | [] => cur
  | Change v :: rest => last_input v rest
  | _ :: rest => last_input cur rest
  end.

(** The two shapes of the system while the input changes rapidly, for an
    input held for [held] milliseconds and a burst of changes that began
    in the state [base]: either the timer of the current input is the only
    one pending and nothing was delivered since [base], or that timer has
    run, after at least [delay], and delivered the current input. *)
Definition waiting (base s : Sys) (held : nat) : Prop :=
  exists d,
    timers s = [mkTimer (handler s) d (value s)] /\
    d + held = now s + delay /\
    set_calls s = set_calls base /\
    debouncedValue s = debouncedValue base /\
    searches s = searches base.

Definition delivered (base s : Sys) (held : nat) : Prop :=
  timers s = [] /\
  delay <= held /\
  set_calls s = set_calls base ++ [value s] /\
  debouncedValue s = value s /\
  (searches s = searches base \/ searches s = searches base ++ [value s]).
End WithDelay.

End Debounce.

(** ** Statements used by the theorems below *)

Module Spec.
Import Js.

(** The sentence "after [logout()] the state is unauthenticated and the
    landing screen has been pushed", for one network and one state. *)
Definition logout_signs_out (net : Request -> FetchResult unit)
           (s : Auth.State) : Prop :=
  Auth.isAuthenticated (state_of (Auth.logout net) s) = false /\
  pushes (trace_of (Auth.logout net) s) = ["/"].

(** The promise an [async] function returned was rejected. *)
Definition rejected {S A} (m : M S A) (s : S) : Prop :=
  exists e, completion m s = inl e.

(** The search request for [query] was sent and failed: no response
    arrived, or one arrived whose status is not 2xx. *)
Definition search_request_fails
           (net : Request -> FetchResult (list Dashboard.Channel))
           (encodeURIComponent : string -> Exn + string)
           (query : string) : Prop :=
  exists encoded,
    encodeURIComponent query = inr encoded /\
    ((exists e, net (Dashboard.search_request encoded) = NetworkFailure e) \/
     (exists r, net (Dashboard.search_request encoded) = Responded r /\
                ok r = false)).

(** The search request for [query] was sent and answered with a 2xx
    status and a body that is not JSON. *)
Definition search_body_undecodable
           (net : Request -> FetchResult (list Dashboard.Channel))
           (encodeURIComponent : string -> Exn + string)
           (query : string) : Prop :=
  exists encoded r,
    encodeURIComponent query = inr encoded /\
    net (Dashboard.search_request encoded) = Responded r /\
    ok r = true /\ json r = None.

(** The search request for [query] was sent and answered with a 2xx
    status and the JSON list [data]. *)
Definition search_succeeds_with
           (net : Request -> FetchResult (list Dashboard.Channel))
           (encodeURIComponent : string -> Exn + string)
           (query : string) (data : list Dashboard.Channel) : Prop :=
  exists encoded r,
    encodeURIComponent query = inr encoded /\
    net (Dashboard.search_request encoded) = Responded r /\
    ok r = true /\ json r = Some data.

(** [Excluded id l l']: [l'] is [l] without its entries whose id is
    [id], the others kept in their order. *)
Inductive Excluded (id : string)
  : list Dashboard.Channel -> list Dashboard.Channel -> Prop :=
| Excluded_nil : Excluded id [] []
| Excluded_drop c l l' :
    Dashboard.channelId c = id -> Excluded id l l' -> Excluded id (c :: l) l'
| Excluded_keep c l l' :
    Dashboard.channelId c <> id -> Excluded id l l' ->
    Excluded id (c :: l) (c :: l').

(** The two states a search for a non-empty query can end in, from the
    state [s] it was started in. *)
Definition search_failed (s : Dashboard.State) : Dashboard.State :=
  Dashboard.mkState (Dashboard.searchQuery s) [] (Dashboard.selectedChannels s)
                    (Dashboard.listName s) (Dashboard.isDropdownOpen s) false
                    (Some Dashboard.fetch_error_message).

Definition search_loaded (s : Dashboard.State) (data : list Dashboard.Channel)
  : Dashboard.State :=
  Dashboard.mkState (Dashboard.searchQuery s) data (Dashboard.selectedChannels s)
                    (Dashboard.listName s) true false None.

(** Environments for running the definitions on concrete inputs. *)
Definition offline {B} : Request -> FetchResult B :=
  fun _ => NetworkFailure (TypeError "Failed to fetch").

Definition answering {B} (code : nat) (body : option B)
  : Request -> FetchResult B :=
  fun _ => Responded (mkResponse code body).

(** [encodeURIComponent] on text made of unreserved characters only. *)
Definition encode_unreserved : string -> Exn + string := fun q => inr q.

Definition c1 : Dashboard.Channel :=
  Dashboard.mkChannel "c1" "A" "//x/y.png" "/c1".

Definition c2 : Dashboard.Channel :=
  Dashboard.mkChannel "c2" "B" "//x/z.png" "/c2".

End Spec.

(** ** page.tsx: [useProtectedRoute], and the effects of the dashboard that
    read the auth flag *)

Module Guard.
Import Js.
Local Open Scope js_scope.

(** Reading the current state. *)
Definition get {S} : M S S := fun s t => ((s, t), inr s).

(** [useAuth()]: the context is [null] outside an [AuthProvider]. *)
Definition useAuth {S} (context : option Auth.State) : M S Auth.State :=
  match context with
  | None => throw (Error "useAuth must be used within an AuthProvider")
  | Some c => ret c
  end.

(** The effect of [useProtectedRoute], for the flag of the render. *)
Definition useProtectedRoute_effect {S} (isAuthenticated : bool) : M S unit :=
  if negb isAuthenticated then router_push "/signin" else ret tt.

(** A render of [useProtectedRoute] whose effect runs (the mount, or a
    render in which the flag changed). *)
Definition useProtectedRoute {S} (context : option Auth.State) : M S bool :=
  c <- useAuth context ;;
  useProtectedRoute_effect (Auth.isAuthenticated c) ;;
  ret (Auth.isAuthenticated c).

(** The effect of [YoutubeDashboard] on [isAuthenticated, router]. *)
Definition dashboard_redirect_effect {S} (isAuthenticated : bool) : M S unit :=
  if negb isAuthenticated then router_push "/" else ret tt.

(** The two effects of a dashboard render, in the order the hooks are
    declared: the one of [useProtectedRoute], then the dashboard's own. *)
Definition dashboard_effects {S} (context : option Auth.State) : M S unit :=
  isAuthenticated <- useProtectedRoute context ;;
  dashboard_redirect_effect isAuthenticated.

(** A dashboard under the provider: the context is the provider's state. *)
Definition render_dashboard : M Auth.State unit :=
  s <- get ;;
  dashboard_effects (Some s).

(** An operation of the provider, followed by the render it causes: the
    effects depend on the flag and run again only when it changed. *)
Definition then_rerender (m : M Auth.State unit) : M Auth.State unit :=
  old <- get ;;
  m ;;
  new <- get ;;
  if Bool.eqb (Auth.isAuthenticated old) (Auth.isAuthenticated new)
  then ret tt
  else render_dashboard.

(** The dashboard loaded as the first page: provider and dashboard mount
    together, the effects of the child before the effect of the provider,
    whose auth check settles later. *)
Definition direct_load (net : Request -> FetchResult unit) : M Auth.State unit :=
  render_dashboard ;;
  then_rerender (Auth.mount net).

(** The operations a provider goes through. *)
Inductive Op : Type := OpCheck | OpLogin | OpLogout.

Definition run_op (net : Request -> FetchResult unit) (op : Op)
  : M Auth.State unit :=
  match op with
  | OpCheck => Auth.checkAuthStatus net
  | OpLogin => Auth.login
  | OpLogout => Auth.logout net
  end.

Fixpoint run_ops (net : Request -> FetchResult unit) (ops : list Op)
  : M Auth.State unit :=
  match ops with
  | [] => ret tt
  | op :: rest => run_op net op ;; run_ops net rest
  end.

(** The operations of a list that send a request. *)
Definition sends (op : Op) : bool :=
  match op with
  | OpLogin => false
  | _ => true
  end.

End Guard.

(** ** Further notions for the dashboard and the hook *)

Module More.
Import Js.

(** [disabled={!listName || selectedChannels.length === 0}] of the
    "Create List" button. *)
Definition create_disabled (s : Dashboard.State) : bool :=
  (Dashboard.listName s =? "")%string
  || (List.length (Dashboard.selectedChannels s) =? 0)%nat.

(** No character of the text is a slash. *)
Fixpoint slash_free (a : string) : bool :=
  match a with
  | EmptyString => true
  | String c a' => negb (Ascii.eqb c "/"%char) && slash_free a'
  end.

(** [pattern] occurs somewhere in [s]. *)
Definition occurs (pattern s : string) : Prop :=
  exists a b, s = String.append a (String.append pattern b).

(** The executable test for [occurs]: [pattern] starts at some position. *)
Fixpoint has_pattern (pattern s : string) : bool :=
  prefix pattern s
  || match s with
     | EmptyString => false
     | String _ s' => has_pattern pattern s'
     end.

(** No two neighbours of the list are equal. *)
Fixpoint adjacent_distinct (l : list string) : bool :=
  match l with
  | [] => true
  | x :: rest =>
      match rest with
      | [] => true
      | y :: _ => negb (x =? y)%string && adjacent_distinct rest
      end
  end.

(** A stretch of a run without input changes, and the time it takes. *)
Fixpoint quiet (acts : list Debounce.Action) : bool :=
  match acts with
  | [] => true
  | Debounce.Change _ :: _ => false
  | _ :: rest => quiet rest
  end.

Fixpoint elapsed (acts : list Debounce.Action) : nat :=
  match acts with
  | [] => 0
  | Debounce.Tick d :: rest => d + elapsed rest
  | _ :: rest => elapsed rest
  end.

(** Along every run of the hook: at most one timer is pending, it is the
    one the latest cleanup would clear, it carries the current input and is
    due within the delay; when none is pending the current input has been
    delivered. *)
Definition timer_invariant (delay : nat) (s : Debounce.Sys) : Prop :=
  List.last (Debounce.searches s) ""%string = Debounce.debouncedValue s /\
  adjacent_distinct (Debounce.searches s) = true /\
  Debounce.searches s <> [] /\
  ((exists d,
      Debounce.timers s = [Debounce.mkTimer (Debounce.handler s) d (Debounce.value s)] /\
      d <= Debounce.now s + delay /\
      Debounce.handler s < Debounce.next_handle s) \/
   (Debounce.timers s = [] /\ Debounce.debouncedValue s = Debounce.value s)).

End More.

(** ** dashboard/page.tsx: [fetchChannels] cut at its two [await]s

    [Dashboard.fetchChannels] follows one call from start to settlement
    with nothing in between.  The function is suspended twice, at
    [await fetch(...)] and at [await response.json()], and other handlers
    (another search, a selection) may run while it is.  Here the body is
    cut at those two points. *)

Module Resume.
Import Js Dashboard.
Local Open Scope js_scope.

(** What is left of the [try] block, under its [catch] and [finally]. *)
Definition guarded (rest : M State unit) : M State unit :=
  try_finally
    (try_catch rest
       (fun err =>
          console_error "Error fetching channels:" err ;;
          setError (Some fetch_error_message) ;;
          setSearchResults []))
    (setIsLoading false).

(** The state a search for a non-empty query leaves when it is suspended
    for the first time. *)
Definition started (s : State) : State :=
  mkState (searchQuery s) (searchResults s) (selectedChannels s) (listName s)
          (isDropdownOpen s) true None.

(** The state the success path leaves, from the state [s] it resumed in. *)
Definition loaded_on (s : State) (data : list Channel) : State :=
  mkState (searchQuery s) data (selectedChannels s) (listName s) true false
          (error s).

Section WithEnvironment.
Variable net : Request -> FetchResult (list Channel).
Variable encodeURIComponent : string -> Exn + string.

(** From the call to [await fetch(...)]: [Some req] when the function is
    suspended on the request [req], [None] when it has already settled. *)
Definition until_fetch (query : string) : M State (option Request) :=
  if (query =? "")%string then
    setSearchResults [] ;;
    setIsDropdownOpen false ;;
    ret None
  else
    setIsLoading true ;;
    setError None ;;
    match encodeURIComponent query with
    | inl e => guarded (throw e) ;; ret None
    | inr encoded =>
        emit (Fetched (search_request encoded)) ;;
        ret (Some (search_request encoded))
    end.

(** From the settlement of [fetch] to [await response.json()]: [Some r]
    when the function is suspended on the body of [r]. *)
Definition after_fetch (result : FetchResult (list Channel))
  : M State (option (Response (list Channel))) :=
  match result with
  | NetworkFailure e => guarded (throw e) ;; ret None
  | Responded r =>
      if negb (ok r)
      then guarded (throw (Error "Failed to fetch channels")) ;; ret None
      else ret (Some r)
  end.

(** From the settlement of [response.json()] to the end. *)
Definition after_json (r : Response (list Channel)) : M State unit :=
  guarded
    (data <- response_json r ;;
     setSearchResults data ;;
     setIsDropdownOpen true).

(** One search with whatever the other handlers do to the state while it
    is suspended: [during_fetch] at the first [await], [during_json] at
    the second. *)
Definition interleaved (query : string)
           (during_fetch during_json : State -> State) : M State unit :=
  suspended <- until_fetch query ;;
  match suspended with
  | None => ret tt
  | Some req =>
      modify during_fetch ;;
      answered <- after_fetch (net req) ;;
      match answered with
      | None => ret tt
      | Some r =>
          modify during_json ;;
          after_json r
      end
  end.
End WithEnvironment.

End Resume.

(** ** The auth holder *)

Section AuthTheorems.
Import Js Auth Spec.

Lemma checkAuthStatus_run (net : Request -> FetchResult unit) (s : State) (t : list Event) :
  checkAuthStatus net s t =
  match net authcheck_request with
  | Responded r =>
      ((mkState (ok r), t ++ [Fetched authcheck_request]), inr tt)
  | NetworkFailure e =>
      ((mkState false,
        (t ++ [Fetched authcheck_request])
          ++ [ConsoleError "Error checking auth status:" e]), inr tt)
  end.
Proof.
  unfold checkAuthStatus, try_catch, fetch, bind, emit.
  destruct (net authcheck_request) as [e | r]; cbn.
  - reflexivity.
  - destruct (ok r); reflexivity.
Qed.

Lemma logout_run (net : Request -> FetchResult unit) (s : State) (t : list Event) :
  logout net s t =
  match net logout_request with
  | Responded _ =>
      ((mkState false, (t ++ [Fetched logout_request]) ++ [RouterPush "/"]), inr tt)
  | NetworkFailure e =>
      ((s, (t ++ [Fetched logout_request])
             ++ [ConsoleError "Error during logout:" e]), inr tt)
  end.
Proof.
  unfold logout, try_catch, fetch, bind, emit.
  destruct (net logout_request) as [e | r]; reflexivity.
Qed.

(** C5. The flag is false at mount.  The effect run at mount sends
    exactly one request, the auth check, and afterwards the flag is true
    exactly when a response arrived and its status is OK; a response with
    another status and a request without response both give false. *)
Theorem mount_authenticated_iff_response_ok :
  isAuthenticated initial = false /\
  forall (net : Request -> FetchResult unit),
    requests (trace_of (mount net) initial) = [authcheck_request] /\
    (isAuthenticated (state_of (mount net) initial) = true <->
     exists r, net authcheck_request = Responded r /\ ok r = true) /\
    (isAuthenticated (state_of (mount net) initial) = false <->
     (exists r, net authcheck_request = Responded r /\ ok r = false) \/
     (exists e, net authcheck_request = NetworkFailure e)).
Proof.
  split; [reflexivity |].
  intros net.
  unfold state_of, trace_of, mount.
  rewrite checkAuthStatus_run.
  destruct (net authcheck_request) as [e | r]; cbn.
  - repeat split.
    + discriminate.
    + intros (r & H & _). discriminate.
    + intros _. right. now exists e.
  - repeat split.
    + intros H. now exists r.
    + intros (r' & H & Hok). now injection H as ->.
    + intros H. left. now exists r.
    + intros [(r' & H & Hok) | (e & H)]; [now injection H as -> | discriminate].
Qed.

(** C1 as stated fails: with no response to the logout request, a signed
    in holder stays signed in, nothing is pushed to the router, and the
    error is logged. *)
Lemma logout_without_response_stays_signed_in :
  requests (trace_of (logout offline) (mkState true)) = [logout_request] /\
  isAuthenticated (state_of (logout offline) (mkState true)) = true /\
  pushes (trace_of (logout offline) (mkState true)) = [] /\
  ~ logout_signs_out offline (mkState true).
Proof.
  repeat split.
  intros [H _]. discriminate H.
Qed.

(** C1, amended.  Every [logout()] sends one logout request and its
    promise is never rejected.  When a response arrives, whatever its
    status, the flag is set to false and the landing screen is pushed;
    when none arrives the error is logged and the state is left as it
    was, with nothing pushed. *)
Theorem logout_signs_out_on_any_response :
  forall (net : Request -> FetchResult unit) (s : State),
    requests (trace_of (logout net) s) = [logout_request] /\
    completion (logout net) s = inr tt /\
    match net logout_request with
    | Responded r =>
        isAuthenticated (state_of (logout net) s) = false /\
        pushes (trace_of (logout net) s) = ["/"] /\
        errors_logged (trace_of (logout net) s) = []
    | NetworkFailure e =>
        state_of (logout net) s = s /\
        pushes (trace_of (logout net) s) = [] /\
        errors_logged (trace_of (logout net) s) = [("Error during logout:", e)]
    end.
Proof.
  intros net s.
  unfold state_of, trace_of, completion.
  rewrite logout_run.
  destruct (net logout_request) as [e | r]; cbn; repeat split.
Qed.

(** A response with a non-2xx status signs out like any other. *)
Example logout_on_500 :
  isAuthenticated (state_of (logout (answering 500 None)) (mkState true)) = false /\
  pushes (trace_of (logout (answering 500 None)) (mkState true)) = ["/"].
Proof. split; reflexivity. Qed.
End AuthTheorems.

(** ** The channel search flow *)

Section SearchTheorems.
Import Js Dashboard Spec.

Variable net : Request -> FetchResult (list Channel).
Variable encodeURIComponent : string -> Exn + string.

Local Notation "'search'" := (fetchChannels net encodeURIComponent).

Lemma fetchChannels_empty (s : State) (t : list Event) :
  search "" s t =
  ((mkState (searchQuery s) [] (selectedChannels s) (listName s) false
            (isLoading s) (error s), t), inr tt).
Proof. reflexivity. Qed.

(** The run of a search for a non-empty query, case by case. *)
Lemma fetchChannels_nonempty (query : string) (s : State) (t : list Event) :
  query <> "" ->
  search query s t =
  match encodeURIComponent query with
  | inl e =>
      ((search_failed s, t ++ [ConsoleError "Error fetching channels:" e]), inr tt)
  | inr encoded =>
      let sent := t ++ [Fetched (search_request encoded)] in
      match net (search_request encoded) with
      | NetworkFailure e =>
          ((search_failed s, sent ++ [ConsoleError "Error fetching channels:" e]),
           inr tt)
      | Responded r =>
          if ok r then
            match json r with
            | Some data => ((search_loaded s data, sent), inr tt)
            | None =>
                ((search_failed s,
                  sent ++ [ConsoleError "Error fetching channels:"
                                        (SyntaxError "Unexpected token in JSON")]),
                 inr tt)
            end
          else
            ((search_failed s,
              sent ++ [ConsoleError "Error fetching channels:"
                                    (Error "Failed to fetch channels")]),
             inr tt)
      end
  end.
Proof.
  intros Hq. apply String.eqb_neq in Hq.
  unfold fetchChannels. rewrite Hq.
  unfold try_finally, try_catch, fetch, response_json, lift, bind, emit,
    console_error, setIsLoading, setError, setSearchResults,
    setIsDropdownOpen, modify, throw, ret.
  cbn.
  destruct (encodeURIComponent query) as [e | encoded]; cbn; [reflexivity |].
  destruct (net (search_request encoded)) as [e | r]; cbn; [reflexivity |].
  destruct (ok r); cbn; [| reflexivity].
  destruct (json r) as [data |]; reflexivity.
Qed.

(** C3. The search for the empty query leaves an empty result set and a
    closed dropdown, and sends no request (it has no outside effect at
    all). *)
Theorem fetchChannels_empty_clears_without_request :
  forall s : State,
    searchResults (state_of (search "") s) = [] /\
    isDropdownOpen (state_of (search "") s) = false /\
    requests (trace_of (search "") s) = [] /\
    trace_of (search "") s = [].
Proof.
  intros s. unfold state_of, trace_of.
  rewrite fetchChannels_empty. cbn. repeat split.
Qed.

(** C10. The search for the empty query changes the result set and the
    dropdown flag only: the error message, the loading flag, the query
    text, the selection and the list name are the ones it found. *)
Theorem fetchChannels_empty_frame :
  forall s : State,
    error (state_of (search "") s) = error s /\
    isLoading (state_of (search "") s) = isLoading s /\
    searchQuery (state_of (search "") s) = searchQuery s /\
    selectedChannels (state_of (search "") s) = selectedChannels s /\
    listName (state_of (search "") s) = listName s.
Proof.
  intros s. unfold state_of.
  rewrite fetchChannels_empty. cbn. repeat split.
Qed.

(** C4. A search for a non-empty query always ends, without rejection,
    with the loading flag false; and when its request fails (no response,
    or a response whose status is not 2xx) the error is the fixed message
    and the result set is empty. *)
Theorem fetchChannels_failure_sets_error_and_clears_loading :
  forall (query : string) (s : State),
    query <> "" ->
    isLoading (state_of (search query) s) = false /\
    completion (search query) s = inr tt /\
    (search_request_fails net encodeURIComponent query ->
     error (state_of (search query) s) = Some fetch_error_message /\
     searchResults (state_of (search query) s) = []).
Proof.
  intros query s Hq.
  unfold state_of, completion.
  rewrite (fetchChannels_nonempty query s [] Hq).
  split; [| split].
  - destruct (encodeURIComponent query) as [e | encoded]; [reflexivity |].
    cbn. destruct (net (search_request encoded)) as [e | r]; [reflexivity |].
    destruct (ok r); [destruct (json r) |]; reflexivity.
  - destruct (encodeURIComponent query) as [e | encoded]; [reflexivity |].
    cbn. destruct (net (search_request encoded)) as [e | r]; [reflexivity |].
    destruct (ok r); [destruct (json r) |]; reflexivity.
  - intros (encoded & Henc & Hfail). rewrite Henc. cbn.
    destruct Hfail as [(e & Hnet) | (r & Hnet & Hok)]; rewrite Hnet.
    + split; reflexivity.
    + rewrite Hok. split; reflexivity.
Qed.

(** C2, amended.  When the response to a search for a non-empty query has
    a 2xx status and a body that is not JSON, the failure of
    [response.json()] is caught like the other failures: the promise is
    not rejected, the error is the fixed message, the result set is
    empty, the loading flag is false and the caught value is logged. *)
Theorem fetchChannels_decode_failure_is_caught :
  forall (query : string) (s : State),
    query <> "" ->
    search_body_undecodable net encodeURIComponent query ->
    completion (search query) s = inr tt /\
    error (state_of (search query) s) = Some fetch_error_message /\
    searchResults (state_of (search query) s) = [] /\
    isLoading (state_of (search query) s) = false /\
    errors_logged (trace_of (search query) s) =
      [("Error fetching channels:", SyntaxError "Unexpected token in JSON")].
Proof.
  intros query s Hq (encoded & r & Henc & Hnet & Hok & Hjson).
  unfold state_of, completion, trace_of.
  rewrite (fetchChannels_nonempty query s [] Hq), Henc. cbn.
  rewrite Hnet, Hok, Hjson. repeat split.
Qed.

(** C8. When the response to a search for a non-empty query is a success
    carrying the one channel [c1], with thumbnail [//x/y.png], the result
    set is that one-element list, the dropdown is open, and the image
    rendered for the channel has source [https://x/y.png]. *)
Theorem fetchChannels_success_shows_secure_thumbnail :
  forall (query : string) (s : State),
    query <> "" ->
    search_succeeds_with net encodeURIComponent query [c1] ->
    searchResults (state_of (search query) s) = [c1] /\
    isDropdownOpen (state_of (search query) s) = true /\
    render_dropdown (state_of (search query) s) = [mkImage "https://x/y.png" "A"] /\
    thumbnail_src c1 = "https://x/y.png".
Proof.
  intros query s Hq (encoded & r & Henc & Hnet & Hok & Hjson).
  unfold state_of.
  rewrite (fetchChannels_nonempty query s [] Hq), Henc. cbn.
  rewrite Hnet, Hok, Hjson. repeat split.
Qed.
End SearchTheorems.

(** The theorems of the search flow at concrete queries and networks. *)

Lemma fetchChannels_on_500 :
  "cats" <> "" /\
  Spec.search_request_fails (Spec.answering 500 None) Spec.encode_unreserved "cats" /\
  let s := Js.state_of (Dashboard.fetchChannels (Spec.answering 500 None)
                                               Spec.encode_unreserved "cats")
                       Dashboard.initial in
  Dashboard.isLoading s = false /\
  Dashboard.error s = Some Dashboard.fetch_error_message /\
  Dashboard.searchResults s = [].
Proof.
  assert (Hq : "cats" <> "") by discriminate.
  assert (Hfail : Spec.search_request_fails (Spec.answering 500 None)
                                            Spec.encode_unreserved "cats").
  { exists "cats". split; [reflexivity |].
    right. eexists. split; reflexivity. }
  destruct (fetchChannels_failure_sets_error_and_clears_loading
              (Spec.answering 500 None) Spec.encode_unreserved
              "cats" Dashboard.initial Hq) as (Hload & _ & Herr).
  destruct (Herr Hfail) as (He & Hr).
  split; [exact Hq |].
  split; [exact Hfail |].
  split; [exact Hload |].
  split; [exact He | exact Hr].
Defined.

Lemma fetchChannels_on_bad_body :
  "cats" <> "" /\
  Spec.search_body_undecodable (Spec.answering 200 None) Spec.encode_unreserved "cats" /\
  Js.completion (Dashboard.fetchChannels (Spec.answering 200 None)
                                         Spec.encode_unreserved "cats")
                Dashboard.initial = inr tt.
Proof.
  assert (Hq : "cats" <> "") by discriminate.
  assert (Hbad : Spec.search_body_undecodable (Spec.answering 200 None)
                                              Spec.encode_unreserved "cats").
  { exists "cats". eexists. repeat split; reflexivity. }
  split; [exact Hq |].
  split; [exact Hbad |].
  exact (proj1 (fetchChannels_decode_failure_is_caught
                  (Spec.answering 200 None) Spec.encode_unreserved
                  "cats" Dashboard.initial Hq Hbad)).
Defined.

Lemma fetchChannels_on_c1 :
  "cats" <> "" /\
  Spec.search_succeeds_with (Spec.answering 200 (Some [Spec.c1]))
                            Spec.encode_unreserved "cats" [Spec.c1] /\
  Dashboard.render_dropdown
    (Js.state_of (Dashboard.fetchChannels (Spec.answering 200 (Some [Spec.c1]))
                                          Spec.encode_unreserved "cats")
                 Dashboard.initial)
  = [Dashboard.mkImage "https://x/y.png" "A"].
Proof.
  assert (Hq : "cats" <> "") by discriminate.
  assert (Hok : Spec.search_succeeds_with (Spec.answering 200 (Some [Spec.c1]))
                                          Spec.encode_unreserved "cats" [Spec.c1]).
  { exists "cats". eexists. repeat split; reflexivity. }
  split; [exact Hq |].
  split; [exact Hok |].
  exact (proj1 (proj2 (proj2 (fetchChannels_success_shows_secure_thumbnail
                  (Spec.answering 200 (Some [Spec.c1])) Spec.encode_unreserved
                  "cats" Dashboard.initial Hq Hok)))).
Defined.

(** C2 as stated fails: a 200 response whose body is not JSON does not
    reject the promise of the search; the failure is caught and the error
    is the fixed message. *)
Lemma fetchChannels_decode_failure_not_rejected :
  Spec.search_body_undecodable (Spec.answering 200 None) Spec.encode_unreserved "cats" /\
  ~ Spec.rejected (Dashboard.fetchChannels (Spec.answering 200 None)
                                           Spec.encode_unreserved "cats")
                  Dashboard.initial /\
  Dashboard.error
    (Js.state_of (Dashboard.fetchChannels (Spec.answering 200 None)
                                          Spec.encode_unreserved "cats")
                 Dashboard.initial)
  = Some Dashboard.fetch_error_message.
Proof.
  split; [| split].
  - exists "cats". eexists. repeat split; reflexivity.
  - intros [e He]. discriminate He.
  - reflexivity.
Qed.

(** ** The selection list *)

Section SelectionTheorems.
Import Js Dashboard Spec.

(** C6. Selecting a channel puts it at the end of the selection list
    whatever the list holds, empties the query text and closes the
    dropdown; selecting it twice leaves two entries at the end. *)
Theorem handleSelectChannel_appends :
  forall (channel : Channel) (s : State),
    let s1 := state_of (handleSelectChannel channel) s in
    let s2 := state_of (handleSelectChannel channel) s1 in
    selectedChannels s1 = selectedChannels s ++ [channel] /\
    searchQuery s1 = "" /\
    isDropdownOpen s1 = false /\
    selectedChannels s2 = selectedChannels s ++ [channel; channel] /\
    List.length (selectedChannels s2) = 2 + List.length (selectedChannels s).
Proof.
  intros channel s. cbn.
  repeat split.
  - now rewrite <- app_assoc.
  - rewrite <- app_assoc, length_app. cbn. lia.
Qed.

Lemma filter_Excluded (id : string) (l : list Channel) :
  Excluded id l (filter (fun channel => negb (channelId channel =? id)%string) l).
Proof.
  induction l as [| c l IH]; cbn.
  - constructor.
  - destruct (String.eqb_spec (channelId c) id) as [Heq | Hne]; cbn.
    + now apply Excluded_drop.
    + now apply Excluded_keep.
Qed.

Lemma filter_absent (id : string) (l : list Channel) :
  (forall c, In c l -> channelId c <> id) ->
  filter (fun channel => negb (channelId channel =? id)%string) l = l.
Proof.
  induction l as [| c l IH]; cbn; intros Habs; [reflexivity |].
  destruct (String.eqb_spec (channelId c) id) as [Heq | Hne]; cbn.
  - exfalso. apply (Habs c); auto.
  - f_equal. apply IH. intros c' Hin. apply Habs. now right.
Qed.

Lemma filter_twice (id : string) (l : list Channel) :
  let keep := fun channel => negb (channelId channel =? id)%string in
  filter keep (filter keep l) = filter keep l.
Proof.
  cbn. apply filter_absent.
  intros c Hin. apply filter_In in Hin as [_ Hkeep].
  apply negb_true_iff in Hkeep. now apply String.eqb_neq.
Qed.

(** What [Excluded] says about membership and order. *)
Lemma Excluded_In (id : string) (l l' : list Channel) :
  Excluded id l l' ->
  forall c, In c l' <-> In c l /\ channelId c <> id.
Proof.
  induction 1 as [| c0 l l' Heq _ IH | c0 l l' Hne _ IH]; intros c; cbn.
  - tauto.
  - rewrite IH. split.
    + intros [Hin Hc]. auto.
    + intros [[-> | Hin] Hc]; [contradiction | auto].
  - rewrite IH. split.
    + intros [-> | [Hin Hc]]; auto.
    + intros [[-> | Hin] Hc]; auto.
Qed.

Lemma Excluded_functional (id : string) (l l1 l2 : list Channel) :
  Excluded id l l1 -> Excluded id l l2 -> l1 = l2.
Proof.
  intros H1. revert l2.
  induction H1 as [| c l l' Heq _ IH | c l l' Hne _ IH]; intros l2 H2;
    inversion H2; subst; try contradiction; auto.
  f_equal. auto.
Qed.

(** C7. Removing an id leaves the selection list without the entries that
    carry it, the others kept in their order; the rest of the state is
    untouched; removing the same id again changes nothing, and removing an
    id that no entry carries changes nothing. *)
Theorem handleRemoveChannel_excludes_and_is_idempotent :
  forall (id : string) (s : State),
    let s1 := state_of (handleRemoveChannel id) s in
    Excluded id (selectedChannels s) (selectedChannels s1) /\
    (forall c, In c (selectedChannels s1) <->
               In c (selectedChannels s) /\ channelId c <> id) /\
    state_of (handleRemoveChannel id) s1 = s1 /\
    ((forall c, In c (selectedChannels s) -> channelId c <> id) -> s1 = s).
Proof.
  intros id s. cbn.
  split; [apply filter_Excluded |].
  split; [apply Excluded_In, filter_Excluded |].
  split.
  - unfold state_of, handleRemoveChannel, setSelectedChannels, modify. cbn.
    f_equal. apply filter_twice.
  - intros Habs. unfold state_of, handleRemoveChannel, setSelectedChannels, modify.
    cbn. rewrite (filter_absent id _ Habs). now destruct s.
Qed.

(** The example of the specification: [c1] removed from the list of [c1]
    and [c2], once and twice. *)
Example handleRemoveChannel_c1 :
  let s := mkState "" [] [c1; c2] "" false false None in
  selectedChannels (state_of (handleRemoveChannel "c1") s) = [c2] /\
  selectedChannels (state_of (handleRemoveChannel "c1")
                             (state_of (handleRemoveChannel "c1") s)) = [c2].
Proof. split; reflexivity. Qed.
End SelectionTheorems.

(** Removing an id that no entry of the list carries. *)
Lemma handleRemoveChannel_absent_id :
  let s := Dashboard.mkState "" [] [Spec.c1; Spec.c2] "" false false None in
  (forall c, In c (Dashboard.selectedChannels s) -> Dashboard.channelId c <> "c3") /\
  Js.state_of (Dashboard.handleRemoveChannel "c3") s = s.
Proof.
  intros s.
  assert (Habs : forall c, In c (Dashboard.selectedChannels s) ->
                           Dashboard.channelId c <> "c3").
  { intros c [<- | [<- | []]]; discriminate. }
  split; [exact Habs |].
  exact (proj2 (proj2 (proj2
           (handleRemoveChannel_excludes_and_is_idempotent "c3" s))) Habs).
Defined.


(** ** The debounce hook: a burst of rapid changes *)

Section DebounceTheorems.
Import Debounce.

Variable delay : nat.
Variable base : Sys.

Local Notation "'inv'" := (fun s held => waiting delay base s held \/ delivered delay base s held).

Lemma tick_inv (d : nat) (s : Sys) (held : nat) :
  inv s held -> inv (tick d s) (held + d).
Proof.
  intros [(due0 & Ht & Hd & Hc & Hv & Hs) | (Ht & Hd & Hc & Hv & Hs)].
  - left. exists due0. cbn. repeat split; try assumption. lia.
  - right. unfold delivered. cbn. repeat split; try assumption. lia.
Qed.

Lemma fire_inv (h : nat) (s : Sys) (held : nat) :
  inv s held -> inv (fire h s) held /\ value (fire h s) = value s.
Proof.
  intros [(due0 & Ht & Hd & Hc & Hv & Hs) | (Ht & Hd & Hc & Hv & Hs)].
  - unfold fire. rewrite Ht. cbn.
    destruct (Nat.eqb_spec (handler s) h) as [Hh | Hne]; cbn.
    + destruct (Nat.leb_spec due0 (now s)) as [Hdue | Hnot]; cbn.
      * destruct (String.eqb_spec (value s) (debouncedValue s)) as [Heq | Hneq];
          cbn; (split; [| reflexivity]); right; unfold delivered; cbn;
          rewrite Hc, Hs; repeat split; auto; lia.
      * split; [| reflexivity]. left. exists due0. repeat split; assumption.
    + split; [| reflexivity]. left. exists due0. repeat split; assumption.
  - unfold fire. rewrite Ht. cbn. split; [| reflexivity].
    right. repeat split; assumption.
Qed.

Lemma change_same (v : string) (s : Sys) :
  v = value s -> change delay v s = s.
Proof. intros ->. unfold change. now rewrite String.eqb_refl. Qed.

Lemma change_inv (v : string) (s : Sys) (held : nat) :
  v <> value s -> held < delay -> inv s held ->
  waiting delay base (change delay v s) 0 /\ value (change delay v s) = v.
Proof.
  intros Hne Hheld [(due0 & Ht & Hd & Hc & Hv & Hs) | (Ht & Hd & Hc & Hv & Hs)];
    [| lia].
  unfold change. apply String.eqb_neq in Hne. rewrite Hne, Ht. cbn.
  rewrite Nat.eqb_refl. cbn. split; [| reflexivity].
  exists (now s + delay). cbn. repeat split; try assumption. lia.
Qed.

(** The invariant along a run in which every input is replaced in less
    than [delay]; the input at the end is the last one of the run. *)
Lemma run_inv (acts : list Action) :
  forall (s : Sys) (held : nat),
    inv s held ->
    rapid delay (value s) held acts = true ->
    (exists held', inv (run delay acts s) held') /\
    value (run delay acts s) = last_input (value s) acts.
Proof.
  induction acts as [| a rest IH]; intros s held Hinv Hrapid; cbn.
  - split; [now exists held | reflexivity].
  - destruct a as [d | v | h]; cbn in Hrapid |- *.
    + apply (IH (tick d s) (held + d)); [now apply tick_inv | exact Hrapid].
    + destruct (String.eqb_spec v (value s)) as [Heq | Hne].
      * rewrite (change_same v s Heq). rewrite Heq. now apply (IH s held).
      * apply andb_true_iff in Hrapid as [Hlt Hrest].
        apply Nat.ltb_lt in Hlt.
        destruct (change_inv v s held Hne Hlt Hinv) as [Hw Hval].
        rewrite <- Hval at 2.
        apply (IH (change delay v s) 0); [now left |].
        now rewrite Hval.
    + destruct (fire_inv h s held Hinv) as [Hinv' Hval].
      rewrite <- Hval.
      apply (IH (fire h s) held); [exact Hinv' |].
      now rewrite Hval.
Qed.
End DebounceTheorems.

(** Keystrokes at least the delay apart are each delivered and searched. *)
Example useDebounce_slow_typing :
  let acts := [Debounce.Change "c"; Debounce.Tick 300; Debounce.Fire 1;
               Debounce.Change "ca"; Debounce.Tick 400; Debounce.Fire 2] in
  Debounce.rapid 300 "" 0 acts = false /\
  Debounce.set_calls (Debounce.run 300 acts (Debounce.mount 300 "")) = ["c"; "ca"] /\
  Debounce.searches (Debounce.run 300 acts (Debounce.mount 300 "")) = [""; "c"; "ca"].
Proof. repeat split. Qed.

(** A timer does not run before it is due. *)
Example useDebounce_not_before_due :
  let acts := [Debounce.Change "c"; Debounce.Tick 299; Debounce.Fire 1] in
  Debounce.set_calls (Debounce.run 300 acts (Debounce.mount 300 "")) = [].
Proof. reflexivity. Qed.

(** ** More on the auth holder and the route guard *)

Section AuthMore.
Import Js Auth Guard.

Variable net : Request -> FetchResult unit.

Lemma requests_app (t1 t2 : list Event) :
  requests (t1 ++ t2) = requests t1 ++ requests t2.
Proof.
  induction t1 as [| ev t1 IH]; cbn; [reflexivity |].
  destruct ev; cbn; now rewrite IH.
Qed.

Lemma login_run (s : State) (t : list Event) :
  login s t = ((mkState true, t ++ [RouterPush "/dashboard"]), inr tt).
Proof. reflexivity. Qed.

(** The auth check does not look at the state it starts from: whatever the
    flag was (set by [login()], say), afterwards it is the [ok] of the
    response, or false without response.  The promise is never rejected,
    and something is logged exactly when no response arrived. *)
Theorem checkAuthStatus_overrides_any_state :
  forall s s' : State,
    isAuthenticated (state_of (checkAuthStatus net) s)
    = match net authcheck_request with
      | Responded r => ok r
      | NetworkFailure _ => false
      end /\
    state_of (checkAuthStatus net) s = state_of (checkAuthStatus net) s' /\
    completion (checkAuthStatus net) s = inr tt /\
    requests (trace_of (checkAuthStatus net) s) = [authcheck_request] /\
    pushes (trace_of (checkAuthStatus net) s) = [] /\
    (errors_logged (trace_of (checkAuthStatus net) s) = [] <->
     exists r, net authcheck_request = Responded r).
Proof.
  intros s s'. unfold state_of, completion, trace_of.
  rewrite !checkAuthStatus_run.
  destruct (net authcheck_request) as [e | r]; cbn; repeat split.
  - discriminate.
  - intros [r H]. discriminate H.
  - intros _. now exists r.
Qed.

(** [login()] followed by [logout()]: one request is sent, the logout one.
    With a response the holder is signed out again and the router was sent
    to the dashboard and then to the landing screen; without one the holder
    is still signed in and the router stays on the dashboard. *)
Theorem login_then_logout :
  forall s : State,
    let session := bind login (fun _ => logout net) in
    requests (trace_of session s) = [logout_request] /\
    completion session s = inr tt /\
    match net logout_request with
    | Responded _ =>
        isAuthenticated (state_of session s) = false /\
        pushes (trace_of session s) = ["/dashboard"; "/"]
    | NetworkFailure _ =>
        isAuthenticated (state_of session s) = true /\
        pushes (trace_of session s) = ["/dashboard"]
    end.
Proof.
  intros s session. unfold session, state_of, completion, trace_of, bind.
  rewrite login_run, logout_run.
  destruct (net logout_request) as [e | r]; cbn; repeat split.
Qed.

Lemma run_op_shape (op : Op) (s : State) (t : list Event) :
  exists s' evs,
    run_op net op s t = ((s', t ++ evs), inr tt) /\
    Forall (fun r => credentials r = Include) (requests evs) /\
    List.length (requests evs) = (if sends op then 1 else 0).
Proof.
  destruct op; cbn.
  - rewrite checkAuthStatus_run.
    destruct (net authcheck_request) as [e | r].
    + exists (mkState false),
        [Fetched authcheck_request; ConsoleError "Error checking auth status:" e].
      rewrite <- app_assoc. cbn. repeat split. repeat constructor.
    + exists (mkState (ok r)), [Fetched authcheck_request].
      cbn. repeat split. repeat constructor.
  - exists (mkState true), [RouterPush "/dashboard"]. cbn. repeat split. constructor.
  - rewrite logout_run.
    destruct (net logout_request) as [e | r].
    + exists s, [Fetched logout_request; ConsoleError "Error during logout:" e].
      rewrite <- app_assoc. cbn. repeat split. repeat constructor.
    + exists (mkState false), [Fetched logout_request; RouterPush "/"].
      rewrite <- app_assoc. cbn. repeat split. repeat constructor.
Qed.

Lemma run_ops_shape (ops : list Op) :
  forall (s : State) (t : list Event),
  exists s' evs,
    run_ops net ops s t = ((s', t ++ evs), inr tt) /\
    Forall (fun r => credentials r = Include) (requests evs) /\
    List.length (requests evs) = List.length (filter sends ops).
Proof.
  induction ops as [| op rest IH]; intros s t.
  - exists s, []. cbn. rewrite app_nil_r. repeat split. constructor.
  - destruct (run_op_shape op s t) as (s1 & evs1 & Hrun1 & Hcred1 & Hlen1).
    destruct (IH s1 (t ++ evs1)) as (s2 & evs2 & Hrun2 & Hcred2 & Hlen2).
    exists s2, (evs1 ++ evs2).
    cbn [run_ops]. unfold bind. rewrite Hrun1, Hrun2, app_assoc.
    split; [reflexivity |]. rewrite requests_app. split.
    + apply Forall_app. now split.
    + rewrite length_app, Hlen1, Hlen2. cbn [filter].
      destruct (sends op); reflexivity.
Qed.

(** Whatever operations the provider goes through, in whatever order and
    on whatever network, none of them rejects; every request they send
    carries the credentials; and each auth check and each logout sends
    exactly one request while [login()] sends none. *)
Theorem auth_operations_never_reject :
  forall (ops : list Op) (s : State),
    completion (run_ops net ops) s = inr tt /\
    Forall (fun r => credentials r = Include)
           (requests (trace_of (run_ops net ops) s)) /\
    List.length (requests (trace_of (run_ops net ops) s))
    = List.length (filter sends ops).
Proof.
  intros ops s.
  destruct (run_ops_shape ops s []) as (s' & evs & Hrun & Hcred & Hlen).
  unfold completion, trace_of. rewrite Hrun. cbn. repeat split; assumption.
Qed.

(** [useProtectedRoute] under a provider returns the flag and pushes the
    sign-in screen exactly when the flag is false; outside a provider it
    throws before anything is pushed. *)
Theorem useProtectedRoute_pushes_signin_iff_unauthenticated :
  forall (c s0 : State),
    completion (useProtectedRoute (Some c)) s0 = inr (isAuthenticated c) /\
    state_of (useProtectedRoute (Some c)) s0 = s0 /\
    trace_of (useProtectedRoute (Some c)) s0
    = (if isAuthenticated c then [] else [RouterPush "/signin"]) /\
    completion (useProtectedRoute None) s0
    = inl (Error "useAuth must be used within an AuthProvider") /\
    trace_of (useProtectedRoute None) s0 = [].
Proof.
  intros [[|]] s0; repeat split.
Qed.

Lemma render_dashboard_run (s : State) (t : list Event) :
  render_dashboard s t =
  ((s, if isAuthenticated s then t
       else (t ++ [RouterPush "/signin"]) ++ [RouterPush "/"]), inr tt).
Proof. destruct s as [[|]]; reflexivity. Qed.

(** The dashboard loaded as the first page: the flag is still false when
    the effects of the first render run, so the router is sent to the
    sign-in screen and then to the landing screen before the auth check is
    even sent, and nothing more is pushed when the check settles: the
    pushes are the same on every network, an OK answer included. *)
Theorem direct_load_redirects_before_auth_check :
  trace_of (direct_load net) initial
  = [RouterPush "/signin"; RouterPush "/"; Fetched authcheck_request]
      ++ match net authcheck_request with
         | Responded _ => []
         | NetworkFailure e => [ConsoleError "Error checking auth status:" e]
         end /\
  pushes (trace_of (direct_load net) initial) = ["/signin"; "/"] /\
  isAuthenticated (state_of (direct_load net) initial)
  = match net authcheck_request with
    | Responded r => ok r
    | NetworkFailure _ => false
    end.
Proof.
  unfold trace_of, state_of, direct_load, then_rerender, mount, bind, get.
  rewrite render_dashboard_run. cbn.
  rewrite checkAuthStatus_run.
  destruct (net authcheck_request) as [e | r]; cbn; [repeat split |].
  destruct (ok r); cbn; repeat split.
Qed.
End AuthMore.

(** ** More on the search flow *)

Section SearchMore.
Import Js Dashboard Spec.

Variable net : Request -> FetchResult (list Channel).
Variable encodeURIComponent : string -> Exn + string.

Local Notation "'search'" := (fetchChannels net encodeURIComponent).

(** When [encodeURIComponent] throws on a non-empty query, no request is
    sent; the thrown value is caught and logged, the error is the fixed
    message, the results are cleared and the loading flag is false. *)
Theorem fetchChannels_unencodable_query_sends_nothing :
  forall (query : string) (e : Exn) (s : State),
    query <> "" ->
    encodeURIComponent query = inl e ->
    requests (trace_of (search query) s) = [] /\
    errors_logged (trace_of (search query) s) = [("Error fetching channels:", e)] /\
    completion (search query) s = inr tt /\
    error (state_of (search query) s) = Some fetch_error_message /\
    searchResults (state_of (search query) s) = [] /\
    isLoading (state_of (search query) s) = false.
Proof.
  intros query e s Hq Henc.
  unfold state_of, trace_of, completion.
  rewrite (fetchChannels_nonempty net encodeURIComponent query s [] Hq), Henc.
  repeat split.
Qed.

(** The requests of a search, for every query: none for the empty query
    and for a query that cannot be encoded, and otherwise exactly one, a
    credentialed GET of the search endpoint with the encoded query. *)
Theorem fetchChannels_sends_at_most_one_request :
  forall (query : string) (s : State),
    requests (trace_of (search query) s)
    = (if (query =? "")%string then []
       else match encodeURIComponent query with
            | inr encoded =>
                [mkRequest (String.append "http://localhost:8000/fetchChannels?q="
                                          encoded) GET Include]
            | inl _ => []
            end) /\
    pushes (trace_of (search query) s) = [].
Proof.
  intros query s. unfold trace_of.
  destruct (String.eqb_spec query "") as [-> | Hq].
  - rewrite fetchChannels_empty. split; reflexivity.
  - rewrite (fetchChannels_nonempty net encodeURIComponent query s [] Hq).
    destruct (encodeURIComponent query) as [e | encoded]; [split; reflexivity |].
    cbn. destruct (net (search_request encoded)) as [e | r]; [split; reflexivity |].
    destruct (ok r); [destruct (json r) |]; split; reflexivity.
Qed.

(** No search, on any query, network or encoder, rejects its promise or
    touches the query text, the selection or the list name. *)
Theorem fetchChannels_never_rejects_and_keeps_selection :
  forall (query : string) (s : State),
    completion (search query) s = inr tt /\
    searchQuery (state_of (search query) s) = searchQuery s /\
    selectedChannels (state_of (search query) s) = selectedChannels s /\
    listName (state_of (search query) s) = listName s.
Proof.
  intros query s. unfold state_of, completion.
  destruct (String.eqb_spec query "") as [-> | Hq].
  - rewrite fetchChannels_empty. repeat split.
  - rewrite (fetchChannels_nonempty net encodeURIComponent query s [] Hq).
    destruct (encodeURIComponent query) as [e | encoded]; [repeat split |].
    cbn. destruct (net (search_request encoded)) as [e | r]; [repeat split |].
    destruct (ok r); [destruct (json r) |]; repeat split.
Qed.

End SearchMore.

(** ** More on the selection list and the thumbnails *)

Section SelectionMore.
Import Js Dashboard Spec More.

Lemma filter_commutes {A} (f g : A -> bool) (l : list A) :
  filter f (filter g l) = filter g (filter f l).
Proof.
  induction l as [| x l IH]; cbn; [reflexivity |].
  destruct (f x) eqn:Hf, (g x) eqn:Hg; cbn; rewrite ?Hf, ?Hg, IH; reflexivity.
Qed.

(** Selecting a channel and then removing its id leaves the list that
    removing the id alone would have left: the new entry goes, and so does
    every older entry with the same id.  When the id was not on the list,
    that is the list before the selection. *)
Theorem handleRemoveChannel_after_select :
  forall (channel : Channel) (s : State),
    let selected := state_of (handleSelectChannel channel) s in
    selectedChannels (state_of (handleRemoveChannel (channelId channel)) selected)
    = selectedChannels (state_of (handleRemoveChannel (channelId channel)) s) /\
    ((forall c, In c (selectedChannels s) -> channelId c <> channelId channel) ->
     selectedChannels (state_of (handleRemoveChannel (channelId channel)) selected)
     = selectedChannels s).
Proof.
  intros channel s selected.
  assert (Hfirst :
    selectedChannels (state_of (handleRemoveChannel (channelId channel)) selected)
    = selectedChannels (state_of (handleRemoveChannel (channelId channel)) s)).
  { cbn. rewrite filter_app. cbn. rewrite String.eqb_refl. cbn. apply app_nil_r. }
  split; [exact Hfirst |].
  intros Habs. rewrite Hfirst. cbn. now apply filter_absent.
Qed.

(** Two removals give the same state in either order. *)
Theorem handleRemoveChannel_commutes :
  forall (id1 id2 : string) (s : State),
    state_of (handleRemoveChannel id1) (state_of (handleRemoveChannel id2) s)
    = state_of (handleRemoveChannel id2) (state_of (handleRemoveChannel id1) s).
Proof.
  intros id1 id2 s.
  unfold state_of, handleRemoveChannel, setSelectedChannels, modify. cbn.
  f_equal. apply filter_commutes.
Qed.

(** Creating the list sends no request: it logs, empties the list name and
    the selection, leaves the search state alone, and leaves the Create
    button disabled. *)
Theorem handleCreateList_only_resets :
  forall s : State,
    let s' := state_of handleCreateList s in
    requests (trace_of handleCreateList s) = [] /\
    trace_of handleCreateList s = [ConsoleLog "Created list:"] /\
    completion handleCreateList s = inr tt /\
    s' = mkState (searchQuery s) (searchResults s) [] "" (isDropdownOpen s)
                 (isLoading s) (error s) /\
    create_disabled s' = true.
Proof. intros s. repeat split. Qed.

(** The Create button is enabled exactly when the list has a name and a
    channel is selected; so right after a selection it is enabled exactly
    when the list has a name, and right after the removal of an id it is
    disabled when every selected channel carried that id. *)
Theorem create_disabled_iff :
  forall s : State,
    (create_disabled s = false <-> listName s <> "" /\ selectedChannels s <> []) /\
    (forall channel,
        create_disabled (state_of (handleSelectChannel channel) s)
        = (listName s =? "")%string) /\
    (forall id,
        (forall c, In c (selectedChannels s) -> channelId c = id) ->
        create_disabled (state_of (handleRemoveChannel id) s) = true).
Proof.
  intros s. split; [| split].
  - unfold create_disabled. rewrite orb_false_iff, String.eqb_neq, Nat.eqb_neq.
    split; intros [Hn Hl]; (split; [exact Hn |]).
    + intros Hnil. now rewrite Hnil in Hl.
    + now destruct (selectedChannels s).
  - intros channel. unfold create_disabled. cbn.
    rewrite length_app. cbn. rewrite Nat.add_comm. cbn. apply orb_false_r.
  - intros id Hall. unfold create_disabled. cbn.
    replace (filter (fun channel => negb (channelId channel =? id)%string)
                    (selectedChannels s)) with (@nil Channel).
    + apply orb_true_r.
    + symmetry. induction (selectedChannels s) as [| c l IH]; cbn; [reflexivity |].
      rewrite (Hall c (or_introl eq_refl)), String.eqb_refl. cbn.
      apply IH. intros c' Hin. apply Hall. now right.
Qed.

Lemma substring_all (s : string) : substring 0 (String.length s) s = s.
Proof. induction s as [| c s IH]; cbn; [reflexivity | now rewrite IH]. Qed.

Lemma prefix_split (p s : string) :
  prefix p s = true ->
  s = String.append p (substring (String.length p)
                                 (String.length s - String.length p) s).
Proof.
  revert s. induction p as [| a p IH]; intros s Hpre; cbn.
  - now rewrite Nat.sub_0_r, substring_all.
  - destruct s as [| b s]; cbn in Hpre |- *; [discriminate |].
    destruct (ascii_dec a b) as [-> | Hne]; [| discriminate].
    f_equal. now apply IH.
Qed.

Lemma prefix_append_self (p b : string) : prefix p (String.append p b) = true.
Proof.
  induction p as [| c p IH]; cbn.
  - now destruct b.
  - destruct (ascii_dec c c) as [_ | Hne]; [exact IH | congruence].
Qed.

Lemma occurs_has_pattern (p s : string) :
  occurs p s -> has_pattern p s = true.
Proof.
  intros (a & b & ->). induction a as [| c a IH].
  - cbn [String.append].
    replace (has_pattern p (String.append p b))
      with (prefix p (String.append p b)
            || match String.append p b with
               | EmptyString => false
               | String _ s' => has_pattern p s'
               end)
      by (now destruct (String.append p b)).
    now rewrite prefix_append_self.
  - cbn [String.append has_pattern]. rewrite IH. apply orb_true_r.
Qed.

Lemma replace_without_occurrence (p r s : string) :
  ~ occurs p s -> replace p r s = s.
Proof.
  induction s as [| c s IH]; intros Hno.
  - cbn [replace]. destruct (prefix p "") eqn:Hpre; [| reflexivity].
    exfalso. apply Hno. exists "". eexists. cbn [String.append].
    apply prefix_split. exact Hpre.
  - cbn [replace]. destruct (prefix p (String c s)) eqn:Hpre.
    + exfalso. apply Hno. exists "". eexists. cbn [String.append].
      apply prefix_split. exact Hpre.
    + f_equal. apply IH. intros (a & b & ->). apply Hno.
      now exists (String c a), b.
Qed.

Lemma replace_at_first_slashes (r a b : string) :
  slash_free a = true ->
  replace "//" r (String.append a (String.append "//" b))
  = String.append a (String.append r b).
Proof.
  induction a as [| c a IH]; intros Hfree.
  - destruct b as [| c b]; cbn; [reflexivity |].
    now rewrite substring_all.
  - cbn in Hfree. apply andb_true_iff in Hfree as [Hc Hfree].
    cbn [String.append replace prefix].
    destruct (ascii_dec "/"%char c) as [<- | Hne]; [discriminate Hc |].
    f_equal. now apply IH.
Qed.

(** A thumbnail whose first slashes are the pair (a protocol-relative
    address, or an address with a scheme) is rendered with [https://] put
    in place of that pair: [//host/p] becomes [https://host/p], and an
    address that already has a scheme, [scheme://host/p], becomes
    [scheme:https://host/p]. *)
Theorem thumbnail_src_replaces_first_pair :
  forall (channel : Channel) (a b : string),
    slash_free a = true ->
    thumbnail channel = String.append a (String.append "//" b) ->
    thumbnail_src channel = String.append a (String.append "https://" b).
Proof.
  intros channel a b Hfree Hthumb. unfold thumbnail_src. rewrite Hthumb.
  now apply replace_at_first_slashes.
Qed.

(** A thumbnail without a pair of slashes is rendered as it is. *)
Theorem thumbnail_src_without_pair :
  forall channel : Channel,
    ~ occurs "//" (thumbnail channel) ->
    thumbnail_src channel = thumbnail channel.
Proof.
  intros channel Hno. unfold thumbnail_src. now apply replace_without_occurrence.
Qed.
End SelectionMore.

(** ** More on the debounce hook: every run, rapid or not *)

Section DebounceMore.
Import Debounce More.

Variable delay : nat.

Lemma adjacent_distinct_snoc (l : list string) (v : string) :
  adjacent_distinct l = true ->
  List.last l "" <> v ->
  l <> [] ->
  adjacent_distinct (l ++ [v]) = true.
Proof.
  induction l as [| x l IH]; intros Hadj Hlast Hne; [congruence |].
  destruct l as [| y l].
  - cbn in *. apply String.eqb_neq in Hlast. now rewrite Hlast.
  - cbn [app adjacent_distinct] in *.
    apply andb_true_iff in Hadj as [Hxy Hadj]. rewrite Hxy. cbn [andb].
    apply IH; [exact Hadj | exact Hlast | discriminate].
Qed.

Lemma mount_timer_invariant (v0 : string) : timer_invariant delay (mount delay v0).
Proof.
  repeat split; cbn; try discriminate.
  left. exists (0 + delay). cbn. repeat split; lia.
Qed.

Lemma step_timer_invariant (a : Action) (s : Sys) :
  timer_invariant delay s -> timer_invariant delay (step delay a s).
Proof.
  intros (Hlast & Hadj & Hne & Htimers).
  destruct a as [d | v | h]; cbn [step].
  - repeat split; cbn; try assumption.
    destruct Htimers as [(d0 & Ht & Hd & Hh) | [Ht Hv]]; [left | now right].
    exists d0. repeat split; try assumption. lia.
  - unfold change. destruct (String.eqb_spec v (value s)) as [Heq | Hneq].
    + repeat split; assumption.
    + repeat split; cbn; try assumption.
      left. exists (now s + delay).
      destruct Htimers as [(d0 & Ht & Hd & Hh) | [Ht Hv]]; rewrite Ht; cbn.
      * rewrite Nat.eqb_refl. cbn. repeat split; lia.
      * repeat split; lia.
  - unfold fire.
    destruct Htimers as [(d0 & Ht & Hd & Hh) | [Ht Hv]]; rewrite Ht; cbn.
    + destruct ((handler s =? h)%nat && (d0 <=? now s)%nat) eqn:Hfind.
      * apply andb_true_iff in Hfind as [Hh' _]. rewrite Hh'. cbn.
        destruct (String.eqb_spec (value s) (debouncedValue s)) as [Heq | Hneq].
        -- repeat split; cbn; try assumption. now right.
        -- repeat split; cbn.
           ++ apply last_last.
           ++ apply adjacent_distinct_snoc; try assumption. congruence.
           ++ intros Hnil. now apply app_eq_nil in Hnil as [_ Hnil].
           ++ now right.
      * repeat split; try assumption. left. exists d0. now repeat split.
    + repeat split; try assumption. now right.
Qed.

Lemma run_timer_invariant (acts : list Action) :
  forall s : Sys, timer_invariant delay s -> timer_invariant delay (run delay acts s).
Proof.
  induction acts as [| a rest IH]; intros s Hinv; cbn; [exact Hinv |].
  apply IH. now apply step_timer_invariant.
Qed.

(** Along every run of the hook at most one timer is pending: the one
    whose handle the next cleanup will clear, carrying the current input
    and due within the delay.  When none is pending, the hook's result is
    the current input.  So whichever timer the runtime runs next, the
    hook's result stays as it is or becomes the current input: an input
    that was replaced is never delivered afterwards. *)
Theorem useDebounce_keeps_one_timer :
  forall (v0 : string) (acts : list Action),
    let s := run delay acts (mount delay v0) in
    List.length (timers s) <= 1 /\
    (forall t, In t (timers s) ->
               handle t = handler s /\ captured t = value s /\
               due t <= now s + delay) /\
    (timers s = [] -> debouncedValue s = value s) /\
    (forall h, debouncedValue (fire h s) = debouncedValue s \/
               debouncedValue (fire h s) = value s).
Proof.
  intros v0 acts s.
  destruct (run_timer_invariant acts _ (mount_timer_invariant v0))
    as (_ & _ & _ & Htimers).
  fold s in Htimers.
  destruct Htimers as [(d0 & Ht & Hd & Hh) | [Ht Hv]].
  - rewrite Ht. repeat split.
    + cbn. lia.
    + destruct H as [<- | []]. reflexivity.
    + destruct H as [<- | []]. reflexivity.
    + destruct H as [<- | []]. exact Hd.
    + discriminate.
    + intros h. unfold fire. rewrite Ht. cbn.
      destruct ((handler s =? h)%nat && (d0 <=? now s)%nat); [| now left].
      cbn. destruct (value s =? debouncedValue s)%string; cbn; [now left | now right].
  - rewrite Ht. repeat split.
    + cbn. lia.
    + destruct H.
    + destruct H.
    + destruct H.
    + intros _. exact Hv.
    + intros h. unfold fire. rewrite Ht. now left.
Qed.

(** Along every run the latest search of the dashboard's effect is for the
    hook's current result, and no search repeats the one before it. *)
Theorem useDebounce_last_search_is_result :
  forall (v0 : string) (acts : list Action),
    let s := run delay acts (mount delay v0) in
    List.last (searches s) "" = debouncedValue s /\
    adjacent_distinct (searches s) = true /\
    List.hd_error (searches s) = Some v0.
Proof.
  intros v0 acts s.
  destruct (run_timer_invariant acts _ (mount_timer_invariant v0))
    as (Hlast & Hadj & _ & _).
  split; [exact Hlast |]. split; [exact Hadj |].
  unfold s. clear.
  assert (Hgen : forall s0, hd_error (searches s0) = Some v0 ->
                            hd_error (searches (run delay acts s0)) = Some v0).
  { induction acts as [| a rest IH]; intros s0 H0; cbn; [exact H0 |].
    apply IH. destruct a as [d | v | h]; cbn.
    - exact H0.
    - unfold change. now destruct (v =? value s0)%string.
    - unfold fire.
      destruct (find _ (timers s0)) as [t |]; [| exact H0].
      destruct (captured t =? debouncedValue s0)%string; cbn; [exact H0 |].
      destruct (searches s0); [discriminate | exact H0]. }
  now apply Hgen.
Qed.

(** Once the input has stopped changing for the delay or longer and the
    pending timer runs, the hook's result is the input and no timer is
    left pending, whatever happened before. *)
Theorem useDebounce_settles_on_input :
  forall (v0 : string) (acts : list Action) (wait : nat),
    delay <= wait ->
    let s := run delay acts (mount delay v0) in
    let s' := run delay [Tick wait; Fire (handler s)] s in
    debouncedValue s' = value s /\
    value s' = value s /\
    timers s' = [].
Proof.
  intros v0 acts wait Hwait s s'.
  destruct (run_timer_invariant acts _ (mount_timer_invariant v0))
    as (_ & _ & _ & Htimers).
  fold s in Htimers. unfold s'. cbn. unfold fire, tick. cbn.
  destruct Htimers as [(d0 & Ht & Hd & Hh) | [Ht Hv]]; rewrite Ht; cbn.
  - rewrite Nat.eqb_refl. cbn.
    destruct (Nat.leb_spec d0 (now s + wait)) as [_ | Hlt]; [| lia].
    cbn. destruct (value s =? debouncedValue s)%string eqn:Heq; cbn.
    + apply String.eqb_eq in Heq. now repeat split.
    + now repeat split.
  - now repeat split.
Qed.

Lemma quiet_run_before_due (acts : list Action) :
  forall (s : Sys) (t : Timer),
    timers s = [t] ->
    quiet acts = true ->
    now s + elapsed acts < due t ->
    set_calls (run delay acts s) = set_calls s /\
    debouncedValue (run delay acts s) = debouncedValue s /\
    searches (run delay acts s) = searches s /\
    timers (run delay acts s) = [t].
Proof.
  induction acts as [| a rest IH]; intros s t Ht Hquiet Hdue; cbn.
  - now repeat split.
  - destruct a as [d | v | h]; cbn in Hquiet, Hdue; [| discriminate |].
    + destruct (IH (tick d s) t) as (H1 & H2 & H3 & H4);
        [exact Ht | exact Hquiet | cbn; lia |].
      cbn [step]. now repeat split.
    + cbn [step].
      assert (Hfire : fire h s = s).
      { unfold fire. rewrite Ht. cbn.
        destruct (Nat.leb_spec (due t) (now s)) as [Hle | _]; [lia |].
        now rewrite andb_false_r. }
      rewrite Hfire. now apply IH.
Qed.

(** For less than the delay after an input change nothing is delivered:
    whatever timers the runtime tries to run in that time, the hook's
    result, the [setDebouncedValue] calls and the searches are those from
    before the change. *)
Theorem useDebounce_delivers_nothing_before_delay :
  forall (v0 v : string) (acts later : list Action),
    let s := run delay acts (mount delay v0) in
    v <> value s ->
    quiet later = true ->
    elapsed later < delay ->
    let s' := run delay (Change v :: later) s in
    debouncedValue s' = debouncedValue s /\
    set_calls s' = set_calls s /\
    searches s' = searches s.
Proof.
  intros v0 v acts later s Hv Hquiet Helapsed s'.
  destruct (run_timer_invariant acts _ (mount_timer_invariant v0))
    as (_ & _ & _ & Htimers).
  fold s in Htimers.
  assert (Ht : timers (change delay v s)
               = [mkTimer (next_handle s) (now s + delay) v]).
  { unfold change. apply String.eqb_neq in Hv. rewrite Hv. cbn.
    destruct Htimers as [(d0 & Ht & _ & _) | [Ht _]]; rewrite Ht; cbn.
    - now rewrite Nat.eqb_refl.
    - reflexivity. }
  destruct (quiet_run_before_due later (change delay v s) _ Ht Hquiet)
    as (H1 & H2 & H3 & _).
  { unfold change. apply String.eqb_neq in Hv. rewrite Hv. cbn. lia. }
  unfold s'. cbn [run step]. rewrite H1, H2, H3.
  unfold change. apply String.eqb_neq in Hv. rewrite Hv. cbn. now repeat split.
Qed.
End DebounceMore.

(** ** The further theorems at concrete inputs *)

Lemma fetchChannels_lone_surrogate :
  let malformed := fun _ : string =>
                     @inl Js.Exn string (Js.URIError "URI malformed") in
  "cats" <> "" /\
  malformed "cats" = inl (Js.URIError "URI malformed") /\
  Js.requests (Js.trace_of (Dashboard.fetchChannels Spec.offline malformed "cats")
                           Dashboard.initial) = [].
Proof.
  intros malformed.
  assert (Hq : "cats" <> "") by discriminate.
  split; [exact Hq |].
  split; [reflexivity |].
  exact (proj1 (fetchChannels_unencodable_query_sends_nothing
                  Spec.offline malformed "cats" (Js.URIError "URI malformed")
                  Dashboard.initial Hq eq_refl)).
Defined.

Lemma handleRemoveChannel_after_select_c2 :
  let s := Dashboard.mkState "" [] [Spec.c1] "" false false None in
  (forall c, In c (Dashboard.selectedChannels s) ->
             Dashboard.channelId c <> Dashboard.channelId Spec.c2) /\
  Dashboard.selectedChannels
    (Js.state_of (Dashboard.handleRemoveChannel (Dashboard.channelId Spec.c2))
                 (Js.state_of (Dashboard.handleSelectChannel Spec.c2) s))
  = [Spec.c1].
Proof.
  intros s.
  assert (Habs : forall c, In c (Dashboard.selectedChannels s) ->
                           Dashboard.channelId c <> Dashboard.channelId Spec.c2).
  { intros c [<- | []]. discriminate. }
  split; [exact Habs |].
  exact (proj2 (handleRemoveChannel_after_select Spec.c2 s) Habs).
Defined.

Lemma create_disabled_after_removing_all :
  let s := Dashboard.mkState "" [] [Spec.c1; Spec.c1] "mine" false false None in
  (forall c, In c (Dashboard.selectedChannels s) -> Dashboard.channelId c = "c1") /\
  More.create_disabled s = false /\
  More.create_disabled (Js.state_of (Dashboard.handleRemoveChannel "c1") s) = true.
Proof.
  intros s.
  assert (Hall : forall c, In c (Dashboard.selectedChannels s) ->
                           Dashboard.channelId c = "c1").
  { intros c [<- | [<- | []]]; reflexivity. }
  split; [exact Hall |].
  split; [reflexivity |].
  exact (proj2 (proj2 (create_disabled_iff s)) "c1" Hall).
Defined.

Lemma thumbnail_src_of_absolute_address :
  let channel := Dashboard.mkChannel "c3" "C" "https://x/y.png" "/c3" in
  More.slash_free "https:" = true /\
  Dashboard.thumbnail channel = String.append "https:" (String.append "//" "x/y.png") /\
  Dashboard.thumbnail_src channel = "https:https://x/y.png".
Proof.
  intros channel.
  split; [reflexivity |].
  split; [reflexivity |].
  exact (thumbnail_src_replaces_first_pair channel "https:" "x/y.png"
                                           eq_refl eq_refl).
Defined.

Lemma thumbnail_src_of_local_path :
  let channel := Dashboard.mkChannel "c4" "D" "/img/d.png" "/c4" in
  ~ More.occurs "//" (Dashboard.thumbnail channel) /\
  Dashboard.thumbnail_src channel = "/img/d.png".
Proof.
  intros channel.
  assert (Hno : ~ More.occurs "//" (Dashboard.thumbnail channel)).
  { intros H. apply occurs_has_pattern in H. discriminate H. }
  split; [exact Hno |].
  exact (thumbnail_src_without_pair channel Hno).
Defined.

Lemma useDebounce_settles_after_typing :
  let acts := [Debounce.Change "c"; Debounce.Tick 100; Debounce.Change "ca"] in
  let s := Debounce.run 300 acts (Debounce.mount 300 "") in
  300 <= 450 /\
  Debounce.debouncedValue s = "" /\
  Debounce.debouncedValue
    (Debounce.run 300 [Debounce.Tick 450; Debounce.Fire (Debounce.handler s)] s)
  = "ca".
Proof.
  intros acts s.
  assert (Hwait : 300 <= 450) by lia.
  split; [exact Hwait |].
  split; [reflexivity |].
  exact (proj1 (useDebounce_settles_on_input 300 "" acts 450 Hwait)).
Defined.

Lemma useDebounce_nothing_within_299 :
  let s := Debounce.run 300 [Debounce.Tick 500] (Debounce.mount 300 "") in
  let later := [Debounce.Tick 299; Debounce.Fire 0; Debounce.Fire 1] in
  "c" <> Debounce.value s /\
  More.quiet later = true /\
  More.elapsed later < 300 /\
  Debounce.set_calls (Debounce.run 300 (Debounce.Change "c" :: later) s)
  = Debounce.set_calls s.
Proof.
  intros s later.
  assert (Hv : "c" <> Debounce.value s) by discriminate.
  assert (He : More.elapsed later < 300) by (cbn; lia).
  split; [exact Hv |].
  split; [reflexivity |].
  split; [exact He |].
  exact (proj1 (proj2 (useDebounce_delivers_nothing_before_delay
                         300 "" "c" [Debounce.Tick 500] later Hv eq_refl He))).
Defined.

(** ** The debounce hook: what a burst of rapid changes delivers *)

Section DebounceBurst.
Import Debounce More.

Variable delay : nat.

(** C9, amended.  The hook is mounted on [v0], which is at once its result
    and the query of the search made at mount, without any delay.  After
    any run [before], a burst of input changes begins with a change to
    [v1], and from then on every input is replaced by the next strictly
    less than [delay] after it became the input, timers running whenever
    the runtime pleases once they are due.  Then from the first change of
    the burst on, at most one [setDebouncedValue] call is made and it
    carries the last input of the burst; at most one search is made and it
    is for the last input; and the hook's result is the one from before the
    burst or the last input.  No other input of the burst is ever
    delivered or searched. *)
Theorem useDebounce_burst_delivers_only_last_input :
  forall (v0 : string) (before : list Action) (v1 : string) (acts : list Action),
    let s0 := run delay before (mount delay v0) in
    v1 <> value s0 ->
    rapid delay v1 0 acts = true ->
    let s := run delay (Change v1 :: acts) s0 in
    let final := last_input v1 acts in
    (set_calls s = set_calls s0 \/ set_calls s = set_calls s0 ++ [final]) /\
    (searches s = searches s0 \/ searches s = searches s0 ++ [final]) /\
    (debouncedValue s = debouncedValue s0 \/ debouncedValue s = final) /\
    debouncedValue (mount delay v0) = v0 /\
    searches (mount delay v0) = [v0].
Proof.
  intros v0 before v1 acts s0 Hv1 Hrapid s final.
  destruct (run_timer_invariant delay before _ (mount_timer_invariant delay v0))
    as (_ & _ & _ & Htimers).
  fold s0 in Htimers.
  assert (Hchange : change delay v1 s0
                    = mkSys (now s0) (S (next_handle s0))
                            [mkTimer (next_handle s0) (now s0 + delay) v1]
                            v1 (debouncedValue s0) (next_handle s0)
                            (set_calls s0) (searches s0)).
  { unfold change. apply String.eqb_neq in Hv1. rewrite Hv1.
    destruct Htimers as [(d0 & Ht & _ & _) | [Ht _]]; rewrite Ht; cbn.
    - now rewrite Nat.eqb_refl.
    - reflexivity. }
  assert (Hwait : waiting delay s0 (change delay v1 s0) 0).
  { rewrite Hchange. exists (now s0 + delay). cbn. repeat split. lia. }
  assert (Hvalue : value (change delay v1 s0) = v1) by now rewrite Hchange.
  destruct (run_inv delay s0 acts (change delay v1 s0) 0) as [[held Hinv] Hlast];
    [now left | now rewrite Hvalue |].
  rewrite Hvalue in Hlast.
  change (run delay acts (change delay v1 s0)) with s in Hinv, Hlast.
  fold final in Hlast.
  destruct Hinv as [(d & _ & _ & Hc & Hd & Hs) | (_ & _ & Hc & Hd & Hs)].
  - repeat split; now left.
  - rewrite Hlast in Hc, Hd, Hs. repeat split.
    + now right.
    + destruct Hs as [Hs | Hs]; [now left | now right].
    + now right.
Qed.
End DebounceBurst.

(** C9 as stated fails at the value the hook is mounted with: mounted on
    [x] and changed to [y] after 100 of the 300 milliseconds, every input
    is replaced in less than the delay, [y] is the last input, and yet [x]
    was the hook's result and the query of a search. *)
Lemma useDebounce_mount_value_is_searched :
  let acts := [Debounce.Tick 100; Debounce.Change "y";
               Debounce.Tick 300; Debounce.Fire 1] in
  let s := Debounce.run 300 acts (Debounce.mount 300 "x") in
  Debounce.rapid 300 "x" 0 acts = true /\
  Debounce.last_input "x" acts = "y" /\
  Debounce.debouncedValue (Debounce.mount 300 "x") = "x" /\
  Debounce.searches s = ["x"; "y"] /\
  ~ (forall q, In q (Debounce.searches s) -> q = Debounce.last_input "x" acts).
Proof.
  intros acts s.
  split; [reflexivity |].
  split; [reflexivity |].
  split; [reflexivity |].
  split; [reflexivity |].
  intros Hall. specialize (Hall "x" (or_introl eq_refl)). discriminate Hall.
Qed.

(** A burst typed a second after the page was loaded, when the timer of
    the mount value has long run: three keystrokes 120 and 250
    milliseconds apart, of which only the last is delivered. *)
Lemma useDebounce_typing_cat :
  let before := [Debounce.Tick 1000; Debounce.Fire 0] in
  let acts := [Debounce.Tick 120; Debounce.Change "ca"; Debounce.Fire 1;
               Debounce.Tick 250; Debounce.Change "cat"; Debounce.Fire 2;
               Debounce.Tick 300; Debounce.Fire 3] in
  let s0 := Debounce.run 300 before (Debounce.mount 300 "") in
  let s := Debounce.run 300 (Debounce.Change "c" :: acts) s0 in
  "c" <> Debounce.value s0 /\
  Debounce.rapid 300 "c" 0 acts = true /\
  Debounce.set_calls s0 = [""] /\
  Debounce.set_calls s = [""; "cat"] /\
  Debounce.searches s = [""; "cat"] /\
  (Debounce.set_calls s = Debounce.set_calls s0 \/
   Debounce.set_calls s = Debounce.set_calls s0 ++ [Debounce.last_input "c" acts]).
Proof.
  intros before acts s0 s.
  assert (Hv : "c" <> Debounce.value s0) by discriminate.
  split; [exact Hv |].
  split; [reflexivity |].
  split; [reflexivity |].
  split; [reflexivity |].
  split; [reflexivity |].
  exact (proj1 (useDebounce_burst_delivers_only_last_input
                  300 "" before "c" acts Hv eq_refl)).
Defined.

(** ** The search flow with other handlers running during its awaits *)

Section SearchResumed.
Import Js Dashboard Spec Resume.

Variable net : Request -> FetchResult (list Channel).
Variable encodeURIComponent : string -> Exn + string.

Local Notation "'resumed'" := (interleaved net encodeURIComponent).

Lemma interleaved_empty (f g : State -> State) (s : State) (t : list Event) :
  resumed "" f g s t =
  ((mkState (searchQuery s) [] (selectedChannels s) (listName s) false
            (isLoading s) (error s), t), inr tt).
Proof. reflexivity. Qed.

(** The run of an interleaved search for a non-empty query, case by case:
    [s1] is the state it resumes in after [fetch], [s2] the one it resumes
    in after [response.json()]. *)
Lemma interleaved_nonempty (query : string) (f g : State -> State)
      (s : State) (t : list Event) :
  query <> "" ->
  resumed query f g s t =
  match encodeURIComponent query with
  | inl e =>
      ((search_failed s, t ++ [ConsoleError "Error fetching channels:" e]), inr tt)
  | inr encoded =>
      let sent := t ++ [Fetched (search_request encoded)] in
      let s1 := f (started s) in
      match net (search_request encoded) with
      | NetworkFailure e =>
          ((search_failed s1, sent ++ [ConsoleError "Error fetching channels:" e]),
           inr tt)
      | Responded r =>
          if ok r then
            let s2 := g s1 in
            match json r with
            | Some data => ((loaded_on s2 data, sent), inr tt)
            | None =>
                ((search_failed s2,
                  sent ++ [ConsoleError "Error fetching channels:"
                                        (SyntaxError "Unexpected token in JSON")]),
                 inr tt)
            end
          else
            ((search_failed s1,
              sent ++ [ConsoleError "Error fetching channels:"
                                    (Error "Failed to fetch channels")]),
             inr tt)
      end
  end.
Proof.
  intros Hq. apply String.eqb_neq in Hq.
  unfold interleaved, until_fetch. rewrite Hq.
  unfold after_fetch, after_json, guarded, try_finally, try_catch,
    response_json, bind, emit, console_error, setIsLoading, setError,
    setSearchResults, setIsDropdownOpen, modify, throw, ret.
  cbn.
  destruct (encodeURIComponent query) as [e | encoded]; cbn; [reflexivity |].
  destruct (net (search_request encoded)) as [e | r]; cbn; [reflexivity |].
  destruct (ok r); cbn; [| reflexivity].
  destruct (json r) as [data |]; reflexivity.
Qed.

(** With nothing run during the two awaits the cut function is
    [fetchChannels]. *)
Lemma interleaved_alone (query : string) (s : State) (t : list Event) :
  resumed query (fun x => x) (fun x => x) s t
  = fetchChannels net encodeURIComponent query s t.
Proof.
  destruct (String.eqb_spec query "") as [-> | Hq]; [reflexivity |].
  rewrite (interleaved_nonempty query _ _ s t Hq).
  rewrite (fetchChannels_nonempty net encodeURIComponent query s t Hq).
  destruct (encodeURIComponent query) as [e | encoded]; [reflexivity |].
  cbn. destruct (net (search_request encoded)) as [e | r]; [reflexivity |].
  destruct (ok r); [destruct (json r) |]; reflexivity.
Qed.

(** A search for a non-empty query that is answered with a 2xx status and
    a JSON list, whatever the other handlers did to the state while it
    waited: when it settles the results are that list, the dropdown flag
    is true, the loading flag is false, it logged nothing and its promise
    is not rejected.  The success path does not touch the error: it is the
    one found at the second resumption, so an error set meanwhile (by
    another search that failed) stays on display; the error is cleared
    only when a search starts. *)
Theorem fetchChannels_success_stores_results :
  forall (query : string) (data : list Channel) (f g : State -> State) (s : State),
    query <> "" ->
    search_succeeds_with net encodeURIComponent query data ->
    let final := state_of (resumed query f g) s in
    searchResults final = data /\
    isDropdownOpen final = true /\
    isLoading final = false /\
    error final = error (g (f (started s))) /\
    error (started s) = None /\
    errors_logged (trace_of (resumed query f g) s) = [] /\
    completion (resumed query f g) s = inr tt.
Proof.
  intros query data f g s Hq (encoded & r & Henc & Hnet & Hok & Hjson) final.
  unfold final, state_of, trace_of, completion.
  rewrite (interleaved_nonempty query f g s [] Hq), Henc. cbn.
  rewrite Hnet, Hok, Hjson. cbn. repeat split.
Qed.

(** A search for a non-empty query, whatever the other handlers did to
    the state while it waited: it settles without rejection and with the
    loading flag false; when the query cannot be encoded, no response
    arrives, the status is not 2xx or the body is not JSON, the error is
    the fixed message and the results are empty; and when no error is on
    display at the end, the request was answered with a 2xx status and a
    JSON body.  With nothing run during the awaits this is
    [fetchChannels]. *)
Theorem fetchChannels_failure_settles_whatever_happened :
  forall (query : string) (f g : State -> State) (s : State),
    query <> "" ->
    let final := state_of (resumed query f g) s in
    completion (resumed query f g) s = inr tt /\
    isLoading final = false /\
    ((exists e, encodeURIComponent query = inl e) \/
     search_request_fails net encodeURIComponent query \/
     search_body_undecodable net encodeURIComponent query ->
     error final = Some fetch_error_message /\ searchResults final = []) /\
    (error final = None ->
     exists data, search_succeeds_with net encodeURIComponent query data) /\
    (forall s' t,
        resumed query (fun x => x) (fun x => x) s' t
        = fetchChannels net encodeURIComponent query s' t).
Proof.
  intros query f g s Hq final.
  unfold final, state_of, completion, search_request_fails,
    search_body_undecodable, search_succeeds_with.
  rewrite (interleaved_nonempty query f g s [] Hq).
  split; [| split; [| split; [| split]]].
  - destruct (encodeURIComponent query) as [e | encoded]; [reflexivity |].
    cbn. destruct (net (search_request encoded)) as [e | r]; [reflexivity |].
    destruct (ok r); [destruct (json r) |]; reflexivity.
  - destruct (encodeURIComponent query) as [e | encoded]; [reflexivity |].
    cbn. destruct (net (search_request encoded)) as [e | r]; [reflexivity |].
    destruct (ok r); [destruct (json r) |]; reflexivity.
  - intros [(e & Henc) | [(encoded & Henc & Hfail) | (encoded & r & Henc & Hnet & Hok & Hjson)]];
      rewrite Henc; cbn.
    + split; reflexivity.
    + destruct Hfail as [(e & Hnet) | (r & Hnet & Hok)]; rewrite Hnet.
      * split; reflexivity.
      * rewrite Hok. split; reflexivity.
    + rewrite Hnet, Hok, Hjson. split; reflexivity.
  - destruct (encodeURIComponent query) as [e | encoded] eqn:Henc; cbn;
      [discriminate |].
    destruct (net (search_request encoded)) as [e | r] eqn:Hnet; cbn;
      [discriminate |].
    destruct (ok r) eqn:Hok; cbn; [| discriminate].
    destruct (json r) as [data |] eqn:Hjson; cbn; [| discriminate].
    intros _. exists data, encoded, r. repeat split; assumption.
  - intros s' t. apply interleaved_alone.
Qed.

(** When a search settles with a non-empty result list stored, whatever
    the other handlers did while it waited, the query was not empty and
    the list is the one its own request was answered with, with the
    dropdown flag true: results stored before the search, or stored while
    it waited, do not survive its settlement. *)
Theorem fetchChannels_stored_results_are_its_own :
  forall (query : string) (f g : State -> State) (s : State),
    searchResults (state_of (resumed query f g) s) <> [] ->
    query <> "" /\
    exists data,
      data <> [] /\
      search_succeeds_with net encodeURIComponent query data /\
      searchResults (state_of (resumed query f g) s) = data /\
      isDropdownOpen (state_of (resumed query f g) s) = true.
Proof.
  intros query f g s. unfold state_of, search_succeeds_with.
  destruct (String.eqb_spec query "") as [-> | Hq].
  { rewrite interleaved_empty. cbn. congruence. }
  rewrite (interleaved_nonempty query f g s [] Hq).
  destruct (encodeURIComponent query) as [e | encoded] eqn:Henc; cbn;
    [congruence |].
  destruct (net (search_request encoded)) as [e | r] eqn:Hnet; cbn;
    [congruence |].
  destruct (ok r) eqn:Hok; cbn; [| congruence].
  destruct (json r) as [data |] eqn:Hjson; cbn; [| congruence].
  intros Hne. split; [exact Hq |].
  exists data. split; [exact Hne |]. split; [| split; reflexivity].
  exists encoded, r. repeat split; assumption.
Qed.
End SearchResumed.

(** A search answered with two channels while another search, which
    failed, settled during its second await: the results are the two
    channels and the message of the other search is still on display. *)
Lemma fetchChannels_success_over_a_failure :
  let net := Spec.answering 200 (Some [Spec.c1; Spec.c2]) in
  let run := Resume.interleaved net Spec.encode_unreserved "cats"
                                (fun x => x) Spec.search_failed in
  "cats" <> "" /\
  Spec.search_succeeds_with net Spec.encode_unreserved "cats" [Spec.c1; Spec.c2] /\
  Dashboard.searchResults (Js.state_of run Dashboard.initial) = [Spec.c1; Spec.c2] /\
  Dashboard.error (Js.state_of run Dashboard.initial)
  = Some Dashboard.fetch_error_message.
Proof.
  intros net run.
  assert (Hq : "cats" <> "") by discriminate.
  assert (Hok : Spec.search_succeeds_with net Spec.encode_unreserved "cats"
                                          [Spec.c1; Spec.c2]).
  { exists "cats". eexists. repeat split; reflexivity. }
  split; [exact Hq |].
  split; [exact Hok |].
  split.
  - exact (proj1 (fetchChannels_success_stores_results
                    net Spec.encode_unreserved "cats" [Spec.c1; Spec.c2]
                    (fun x => x) Spec.search_failed Dashboard.initial Hq Hok)).
  - exact (proj1 (proj2 (proj2 (proj2
             (fetchChannels_success_stores_results
                net Spec.encode_unreserved "cats" [Spec.c1; Spec.c2]
                (fun x => x) Spec.search_failed Dashboard.initial Hq Hok))))).
Defined.

(** A 404 answer after a selection was made during the first await. *)
Lemma fetchChannels_404_after_a_selection :
  let net := Spec.answering 404 (Some [Spec.c1]) in
  let select := Js.state_of (Dashboard.handleSelectChannel Spec.c2) in
  let run := Resume.interleaved net Spec.encode_unreserved "cats"
                                select (fun x => x) in
  "cats" <> "" /\
  Spec.search_request_fails net Spec.encode_unreserved "cats" /\
  Dashboard.error (Js.state_of run Dashboard.initial)
  = Some Dashboard.fetch_error_message /\
  Dashboard.searchResults (Js.state_of run Dashboard.initial) = [].
Proof.
  intros net select run.
  assert (Hq : "cats" <> "") by discriminate.
  assert (Hfail : Spec.search_request_fails net Spec.encode_unreserved "cats").
  { exists "cats". split; [reflexivity |]. right. eexists. split; reflexivity. }
  split; [exact Hq |].
  split; [exact Hfail |].
  exact (proj1 (proj2 (proj2
           (fetchChannels_failure_settles_whatever_happened
              net Spec.encode_unreserved "cats" select (fun x => x)
              Dashboard.initial Hq)))
           (or_intror (or_introl Hfail))).
Defined.

(** The results of an earlier search do not survive a later one. *)
Lemma fetchChannels_replaces_earlier_results :
  let net := Spec.answering 200 (Some [Spec.c2]) in
  let earlier := Dashboard.mkState "dogs" [Spec.c1; Spec.c1] [] "" true false None in
  let run := Resume.interleaved net Spec.encode_unreserved "dogs"
                                (fun x => x) (fun x => x) in
  Dashboard.searchResults (Js.state_of run earlier) <> [] /\
  exists data,
    data <> [] /\
    Spec.search_succeeds_with net Spec.encode_unreserved "dogs" data /\
    Dashboard.searchResults (Js.state_of run earlier) = data /\
    Dashboard.isDropdownOpen (Js.state_of run earlier) = true.
Proof.
  intros net earlier run.
  assert (Hshown : Dashboard.searchResults (Js.state_of run earlier) <> [])
    by discriminate.
  split; [exact Hshown |].
  exact (proj2 (fetchChannels_stored_results_are_its_own
                  net Spec.encode_unreserved "dogs" (fun x => x) (fun x => x)
                  earlier Hshown)).
Defined.
